(** * MovePredictionEngine: a shallow embedding and its verified properties

    The Python source computes on floats and ints.  Floats are idealised
    here as exact real numbers ([R]); ints are [Z].  [math.log],
    [math.pow] and [math.floor] are the real logarithm, the real power
    and the integer floor; the conversion of an int to a float keeps its
    range check.  Python exceptions are values of [exn]; in-place mutation
    of the engine is explicit state passing, and a raised exception keeps
    the mutations made before it.

    Where rounding decides a property, the module [Binary64] replays the
    same code on IEEE 754 binary64 numbers. *)

From Stdlib Require Import Reals ZArith List Lia Lra Bool.
From Stdlib Require Import Zfloor Floats.
Import ListNotations.

Local Open Scope Z_scope.
Local Open Scope R_scope.

(** ** Python exceptions and results *)

Inductive exn : Set :=
| ZeroDivisionError
| ValueError
| IndexError
| OverflowError.

Inductive result (A : Type) : Type :=
| Ok (a : A)
| Raise (e : exn).

Arguments Ok {A} a.
Arguments Raise {A} e.

Definition rbind {A B : Type} (c : result A) (k : A -> result B) : result B :=
  match c with
  | Ok a => k a
  | Raise e => Raise e
  end.

Declare Scope py_scope.
Delimit Scope py_scope with py.
Notation "x <- c ;; k" := (rbind c (fun x => k))
  (at level 61, c at next level, right associativity) : py_scope.
Notation "' p <- c ;; k" := (rbind c (fun x => let p := x in k))
  (at level 61, p pattern, c at next level, right associativity) : py_scope.
Local Open Scope py_scope.

(** [for a in l: b = f(b, a)], stopping at the first exception. *)
Fixpoint foldM {A B : Type} (f : B -> A -> result B) (l : list A) (b : B)
  : result B :=
  match l with
  | [] => Ok b
  | a :: l' => b' <- f b a ;; foldM f l' b'
  end.

(** ** Python lists indexed by ints *)

(** [range(lo, hi)] and [range(n)]. *)
Definition range2 (lo hi : Z) : list Z :=
  map (fun k => lo + Z.of_nat k)%Z (seq 0 (Z.to_nat (hi - lo))).

Definition range (n : Z) : list Z := range2 0 n.

(** A Python index [i] into a list of length [n]: negative indices count
    from the end, anything outside [-n, n) raises IndexError. *)
Definition py_norm_index (n : nat) (i : Z) : result nat :=
  let k := if (i <? 0)%Z then (i + Z.of_nat n)%Z else i in
  if ((0 <=? k) && (k <? Z.of_nat n))%Z then Ok (Z.to_nat k)
  else Raise IndexError.

Fixpoint list_update {A : Type} (l : list A) (n : nat) (x : A) : list A :=
  match l, n with
  | [], _ => []
  | _ :: l', O => x :: l'
  | a :: l', S n' => a :: list_update l' n' x
  end.

(** [l[i]] *)
Definition py_index {A : Type} (l : list A) (i : Z) : result A :=
  k <- py_norm_index (length l) i ;;
  match nth_error l k with
  | Some a => Ok a
  | None => Raise IndexError
  end.

(** [l[i] = x] *)
Definition py_setitem {A : Type} (l : list A) (i : Z) (x : A)
  : result (list A) :=
  k <- py_norm_index (length l) i ;;
  Ok (list_update l k x).

(** ** Library arithmetic *)

(** [float(n)] for an int [n], as every mixed operation such as [n / 2.0]
    does first: ints that round to a finite binary64 value convert, and
    from [2^1024 - 2^970] on the conversion raises OverflowError.  (The
    value itself is kept exact.) *)
Definition float_int_bound : Z := (2 ^ 1024 - 2 ^ 970)%Z.

Definition py_float (n : Z) : result R :=
  if (Z.abs n <? float_int_bound)%Z then Ok (IZR n)
  else Raise OverflowError.

(** [a / b] on floats. *)
Definition py_div (a b : R) : result R :=
  if Req_dec_T b 0 then Raise ZeroDivisionError else Ok (a / b).

(** [math.log(x)]: a domain error outside the positive reals. *)
Definition math_log (x : R) : result R :=
  if Rle_dec x 0 then Raise ValueError else Ok (ln x).

(** [math.pow(x, y)]: [x ** y], with a domain error for a zero base and a
    negative exponent, and for a negative base and a fractional exponent. *)
Definition math_pow (x y : R) : result R :=
  if Rlt_dec 0 x then Ok (Rpower x y)
  else if Req_dec_T x 0 then
    if Rlt_dec y 0 then Raise ValueError
    else if Req_dec_T y 0 then Ok 1 else Ok 0
  else if Req_dec_T (IZR (Zfloor y)) y then Ok (powerRZ x (Zfloor y))
  else Raise ValueError.

(** [sum(l)], [max(l)], [min(l)] on lists of floats; [max] and [min] of an
    empty list raise ValueError. *)
Definition py_sum (l : list R) : R := fold_left Rplus l 0.

Definition py_max (l : list R) : result R :=
  match l with
  | [] => Raise ValueError
  | x :: l' => Ok (fold_left Rmax l' x)
  end.

Definition py_min (l : list R) : result R :=
  match l with
  | [] => Raise ValueError
  | x :: l' => Ok (fold_left Rmin l' x)
  end.

(** ** class Move *)

Record Move : Type := mkMove { states : list R }.

(** [Move(num_states)]: [states = [0.0] * num_states]. *)
Definition Move_new (num_states : Z) : Move :=
  mkMove (repeat 0 (Z.to_nat num_states)).

(** ** class BaseMoveWeights *)

Module BaseMoveWeights.

Definition StateCount : Z := 30.
Definition BaseDiffPerState : R := 4 / IZR StateCount.
Definition CircularRange : R := 360.

(** [x - StateCount * (x // StateCount)] *)
Definition get_index_at_offset (t offset : Z) : Z :=
  let x := (t + offset)%Z in
  (x - StateCount * (x / StateCount))%Z.

(** The body of [for t in range(StateCount)]: build one template. *)
Definition initialize_move (t : Z) : result Move :=
  foldM
    (fun (move : Move) (j : Z) =>
       let weight := 1 - BaseDiffPerState * IZR j in
       s1 <- py_setitem (states move) (get_index_at_offset t j) weight ;;
       s2 <- py_setitem s1 (get_index_at_offset t (- j)) weight ;;
       Ok (mkMove s2))
    (range (StateCount / 2 + 1))
    (Move_new StateCount).

(** [initialize()], as a function of the class attributes
    [(MoveWeights, SumMoveWeights)] it mutates. *)
Definition initialize (cls : list Move * R) : result (list Move * R) :=
  mw <- foldM
          (fun (mw : list Move) (t : Z) =>
             move <- initialize_move t ;;
             Ok (mw ++ [move]))
          (range StateCount) (fst cls) ;;
  s <- foldM
         (fun (s : R) (j : Z) =>
            m0 <- py_index mw 0 ;;
            x <- py_index (states m0) j ;;
            Ok (s + Rabs x))
         (range StateCount) (snd cls) ;;
  Ok (mw, s).

(** The class attributes after the module-level call
    [BaseMoveWeights.initialize()]. *)
Definition class_state : result (list Move * R) := initialize ([], 0).

Definition MoveWeights : list Move :=
  match class_state with
  | Ok cls => fst cls
  | Raise _ => []
  end.

Definition SumMoveWeights : R :=
  match class_state with
  | Ok cls => snd cls
  | Raise _ => 0
  end.

End BaseMoveWeights.
Import BaseMoveWeights.

(** ** class MovePredictionEngine *)

Module MovePredictionEngine.

(** The attributes of an engine object. *)
Record Engine : Type := mkEngine {
  history_depth : Z;
  history : list Move;
  weights : list (list Move);
  scoreScaler : R;
  ScoreScalerMiddle : R
}.

Definition set_history (h : list Move) (e : Engine) : Engine :=
  mkEngine (history_depth e) h (weights e) (scoreScaler e)
           (ScoreScalerMiddle e).

Definition set_weights (w : list (list Move)) (e : Engine) : Engine :=
  mkEngine (history_depth e) (history e) w (scoreScaler e)
           (ScoreScalerMiddle e).

(** Methods run on the engine they may mutate: a computation returns
    its result, or the exception raised, with the engine as it is at
    that point. *)
Definition M (A : Type) : Type := Engine -> result A * Engine.

Definition mret {A : Type} (a : A) : M A := fun e => (Ok a, e).

Definition mbind {A B : Type} (c : M A) (k : A -> M B) : M B :=
  fun e =>
    match c e with
    | (Ok a, e') => k a e'
    | (Raise x, e') => (Raise x, e')
    end.

Definition lift {A : Type} (r : result A) : M A := fun e => (r, e).

Definition gets {A : Type} (f : Engine -> A) : M A :=
  fun e => (Ok (f e), e).

Definition modify (f : Engine -> Engine) : M unit :=
  fun e => (Ok tt, f e).

Declare Scope eng_scope.
Delimit Scope eng_scope with eng.
Notation "x <- c ;; k" := (mbind c (fun x => k))
  (at level 61, c at next level, right associativity) : eng_scope.
Notation "' p <- c ;; k" := (mbind c (fun x => let p := x in k))
  (at level 61, p pattern, c at next level, right associativity)
  : eng_scope.

Fixpoint mfoldM {A B : Type} (f : B -> A -> M B) (l : list A) (b : B)
  : M B :=
  match l with
  | [] => mret b
  | a :: l' => (b' <- f b a ;; mfoldM f l' b')%eng
  end.

(** [__init__(self, history_depth_count)] *)
Definition __init__ (history_depth_count : Z) : result Engine :=
  l <- math_log (IZR history_depth_count) ;;
  scaler <- py_div 1 l ;;
  depth <- py_float history_depth_count ;;
  middle <- math_pow (depth / 2) scaler ;;
  let w :=
    fold_left
      (fun (w : list (list Move)) (d : Z) =>
         w ++ [map (fun _ => Move_new StateCount) (range StateCount)])
      (range history_depth_count) [] in
  Ok (mkEngine history_depth_count [] w scaler middle).

(** [get_target_state_and_weights(self, degrees)] *)
Definition get_target_state_and_weights (degrees : R) : Z * R * R :=
  let degrees := if Req_dec_T degrees CircularRange then 0 else degrees in
  let t := Zfloor (IZR StateCount * (degrees / CircularRange)) in
  let t1_weight :=
    1 - ((IZR (t + 1) / IZR StateCount) - (degrees / CircularRange)) in
  let t2_weight := 1 - t1_weight in
  (t, t1_weight, t2_weight).

(** [get_move(self, degrees)] *)
Definition get_move (degrees : R) : result Move :=
  let '(t, t1_weight, t2_weight) := get_target_state_and_weights degrees in
  base_move <- py_index MoveWeights t ;;
  foldM
    (fun (move : Move) (j : Z) =>
       a <- py_index (states base_move) (get_index_at_offset t j) ;;
       b <- py_index (states base_move) (get_index_at_offset t (j - 1)) ;;
       s <- py_setitem (states move) (get_index_at_offset t j)
              (a * t1_weight + b * t2_weight) ;;
       Ok (mkMove s))
    (range2 1 (StateCount + 1))
    (Move_new StateCount).

(** [self.weights[d][i].states[j]] *)
Definition weight_get (w : list (list Move)) (d i j : Z) : result R :=
  wd <- py_index w d ;;
  wi <- py_index wd i ;;
  py_index (states wi) j.

(** [self.weights[d][i].states[j] = x] *)
Definition weight_set (w : list (list Move)) (d i j : Z) (x : R)
  : result (list (list Move)) :=
  wd <- py_index w d ;;
  wi <- py_index wd i ;;
  s <- py_setitem (states wi) j x ;;
  wd' <- py_setitem wd i (mkMove s) ;;
  py_setitem w d wd'.

(** The body of the innermost loop, for the cell [d][i][j]:
    [pred.states[i] += hist_move.states[j] * move_weights_i.states[j]]
    then [move_weights_i.states[j] += move_state_i * hist_move.states[j]]. *)
Definition core_step (hist_move : Move) (move_state_i : R) (d i : Z)
    (pred : Move) (j : Z) : M Move :=
  (p_i <- lift (py_index (states pred) i) ;;
   h_j <- lift (py_index (states hist_move) j) ;;
   w <- gets weights ;;
   w_ij <- lift (weight_get w d i j) ;;
   s <- lift (py_setitem (states pred) i (p_i + h_j * w_ij)) ;;
   w <- gets weights ;;
   w_ij <- lift (weight_get w d i j) ;;
   h_j <- lift (py_index (states hist_move) j) ;;
   w' <- lift (weight_set w d i j (w_ij + move_state_i * h_j)) ;;
   _ <- modify (set_weights w') ;;
   mret (mkMove s))%eng.

(** The body of [for i in range(StateCount)]. *)
Definition core_row (hist_move move : Move) (d : Z) (pred : Move) (i : Z)
  : M Move :=
  (w <- gets weights ;;
   wd <- lift (py_index w d) ;;
   _ <- lift (py_index wd i) ;;
   move_state_i <- lift (py_index (states move) i) ;;
   mfoldM (core_step hist_move move_state_i d i) (range StateCount) pred)%eng.

(** The body of [for d in range(len(self.history))]. *)
Definition core_lag (move pred : Move) (d : Z) : M Move :=
  (h <- gets history ;;
   hist_move <- lift (py_index h d) ;;
   w <- gets weights ;;
   _ <- lift (py_index w d) ;;
   mfoldM (core_row hist_move move d) (range StateCount) pred)%eng.

(** [record_move_and_get_predicted(self, degrees)] *)
Definition record_move_and_get_predicted (degrees : R) : M Move :=
  (move <- lift (get_move degrees) ;;
   n <- gets (fun e => length (history e)) ;;
   pred <- mfoldM (core_lag move) (range (Z.of_nat n))
             (Move_new StateCount) ;;
   _ <- modify (fun e => set_history (move :: history e) e) ;;
   n <- gets (fun e => length (history e)) ;;
   depth <- gets history_depth ;;
   _ <- (if (depth <? Z.of_nat n)%Z
         then modify (fun e => set_history (removelast (history e)) e)
         else mret tt) ;;
   mret pred)%eng.

(** [get_scoring_weight(self, degrees, predicted)] *)
Definition get_scoring_weight (degrees : R) (predicted : Move)
  : M (R * R * R) :=
  let '(t, t1_weight, t2_weight) := get_target_state_and_weights degrees in
  let sum_states := py_sum (map Rabs (states predicted)) in
  if Rlt_dec 0 sum_states then
    (p_t <- lift (py_index (states predicted) t) ;;
     p_t1 <- lift (py_index (states predicted) (get_index_at_offset t 1)) ;;
     q <- lift (py_div (p_t * t1_weight + p_t1 * t2_weight) sum_states) ;;
     let score := q * SumMoveWeights in
     max_state <- lift (py_max (states predicted)) ;;
     min_state <- lift (py_min (states predicted)) ;;
     let max_abs := Rmax max_state (Rabs min_state) in
     qn <- lift (py_div max_abs sum_states) ;;
     let score_range_normalizer := qn * SumMoveWeights in
     let neg_add := score_range_normalizer + score in
     let pos_add := score_range_normalizer - score in
     n <- gets (fun e => length (history e)) ;;
     s <- gets scoreScaler ;;
     scaler <- lift (math_pow (INR n) s) ;;
     let neg_add := neg_add * scaler in
     let pos_add := pos_add * scaler in
     middle <- gets ScoreScalerMiddle ;;
     qs <- lift (py_div scaler middle) ;;
     let score := score * qs in
     mret (- score, pos_add, neg_add))%eng
  else mret (- 0, 0, 0).

(** The final formula of [test_score_move_series]. *)
Definition final_score (pos_sum neg_sum : R) : result R :=
  final <- (if Rlt_dec pos_sum neg_sum then py_div pos_sum neg_sum
            else (q <- py_div neg_sum pos_sum ;; Ok (2 - q))) ;;
  Ok (final * 100).

(** The body of [for degree in degrees], on [(pos_sum, neg_sum)]. *)
Definition score_move (sums : R * R) (degree : R) : M (R * R) :=
  (exp <- record_move_and_get_predicted degree ;;
   r <- get_scoring_weight degree exp ;;
   let '(score, add, neg) := r in
   mret (fst sums + add, snd sums + neg))%eng.

(** [test_score_move_series(degrees)] *)
Definition test_score_move_series (degrees : list R) : result R :=
  engine <- __init__ (Z.of_nat (length degrees)) ;;
  sums <- fst (mfoldM score_move degrees (0, 0) engine) ;;
  final_score (fst sums) (snd sums).


End MovePredictionEngine.
Import MovePredictionEngine.

(** ** The demo: colours of the drawn moves *)

(** [int(x)] on a float: truncation towards zero. *)
Definition py_int (x : R) : Z :=
  if Rle_dec 0 x then Zfloor x else Zceil x.

(** [x % m] on floats, for a positive [m]. *)
Definition py_fmod (x m : R) : R := x - m * IZR (Zfloor (x / m)).

(** [calculate_color(angle)], returning [(red, green, blue)]. *)
Definition calculate_color (angle : R) : Z * Z * Z :=
  let normalized_angle := py_fmod (Rabs angle) 360 in
  let normalized_angle :=
    if Rlt_dec 180 normalized_angle then 360 - normalized_angle
    else normalized_angle in
  if Rle_dec normalized_angle 90 then
    let green := py_int (255 * (1 - normalized_angle / 90)) in
    let blue := py_int (255 * (normalized_angle / 90)) in
    let red := 0%Z in
    (red, green, blue)
  else
    let blue := py_int (255 * (1 - (normalized_angle - 90) / 90)) in
    let red := py_int (255 * ((normalized_angle - 90) / 90)) in
    let green := 0%Z in
    (red, green, blue).

(** * The same code on binary64 numbers

    The functions whose properties rounding decides, replayed on IEEE 754
    binary64 floats, operation for operation.  The definitions compute. *)

Module Binary64.

(** [float(n)] for an int that a float holds exactly. *)
Definition of_int (n : Z) : float :=
  if (n <? 0)%Z then (- PrimFloat.of_uint63 (Uint63.of_Z (- n)))%float
  else PrimFloat.of_uint63 (Uint63.of_Z n).

(** [int(math.floor(x))] *)
Definition floor_to_int (x : float) : result Z :=
  match Prim2SF x with
  | S754_zero _ => Ok 0%Z
  | S754_finite s m e =>
      let v := if s then Z.neg m else Z.pos m in
      Ok (if (0 <=? e)%Z then v * 2 ^ e else v / 2 ^ (- e))%Z
  | S754_infinity _ => Raise OverflowError
  | S754_nan => Raise ValueError
  end.

(** [math.pow(x, y)] where IEEE 754 and C fix the result exactly
    ([pow(1, y)] and [pow(x, 0)] are 1); elsewhere the value is the
    platform library's and is not modelled. *)
Definition math_pow (x y : float) : option float :=
  if (x =? 1)%float then Some 1%float
  else if (y =? 0)%float then Some 1%float
  else None.

(** [max(l)] and [min(l)]: the first largest, or smallest, entry. *)
Definition py_max (l : list float) : result float :=
  match l with
  | [] => Raise ValueError
  | x :: l' =>
      Ok (fold_left (fun m y => if (m <? y)%float then y else m) l' x)
  end.

Definition py_min (l : list float) : result float :=
  match l with
  | [] => Raise ValueError
  | x :: l' =>
      Ok (fold_left (fun m y => if (y <? m)%float then y else m) l' x)
  end.

Record Move : Set := mkMove { states : list float }.

Definition Move_new (num_states : Z) : Move :=
  mkMove (repeat 0%float (Z.to_nat num_states)).

Definition BaseDiffPerState : float := (4 / of_int StateCount)%float.
Definition CircularRange : float := 360%float.

(** The body of [for t in range(StateCount)] of [initialize]. *)
Definition initialize_move (t : Z) : result Move :=
  foldM
    (fun (move : Move) (j : Z) =>
       let weight := (1 - BaseDiffPerState * of_int j)%float in
       s1 <- py_setitem (states move) (get_index_at_offset t j) weight ;;
       s2 <- py_setitem s1 (get_index_at_offset t (- j)) weight ;;
       Ok (mkMove s2))
    (range (StateCount / 2 + 1))
    (Move_new StateCount).

(** [initialize()] *)
Definition initialize (cls : list Move * float)
  : result (list Move * float) :=
  mw <- foldM
          (fun (mw : list Move) (t : Z) =>
             move <- initialize_move t ;;
             Ok (mw ++ [move]))
          (range StateCount) (fst cls) ;;
  s <- foldM
         (fun (s : float) (j : Z) =>
            m0 <- py_index mw 0 ;;
            x <- py_index (states m0) j ;;
            Ok (s + abs x)%float)
         (range StateCount) (snd cls) ;;
  Ok (mw, s).

Definition class_state : result (list Move * float) :=
  Eval vm_compute in initialize ([], 0%float).

Definition MoveWeights : list Move :=
  match class_state with
  | Ok cls => fst cls
  | Raise _ => []
  end.

Definition SumMoveWeights : float :=
  match class_state with
  | Ok cls => snd cls
  | Raise _ => 0%float
  end.

(** [get_target_state_and_weights(self, degrees)] *)
Definition get_target_state_and_weights (degrees : float)
  : result (Z * float * float) :=
  let degrees :=
    if (degrees =? CircularRange)%float then 0%float else degrees in
  t <- floor_to_int (of_int StateCount * (degrees / CircularRange))%float ;;
  let t1_weight :=
    (1 - ((of_int (t + 1) / of_int StateCount)
          - (degrees / CircularRange)))%float in
  let t2_weight := (1 - t1_weight)%float in
  Ok (t, t1_weight, t2_weight).

(** The attributes [get_scoring_weight] reads. *)
Record Engine : Set := mkEngine {
  history : list Move;
  scoreScaler : float;
  ScoreScalerMiddle : float
}.

(** [get_scoring_weight(self, degrees, predicted)]; [None] where the result
    depends on a value of [math.pow] that is not modelled. *)
Definition get_scoring_weight (e : Engine) (degrees : float)
    (predicted : Move) : option (result (float * float * float)) :=
  match get_target_state_and_weights degrees with
  | Raise x => Some (Raise x)
  | Ok (t, t1_weight, t2_weight) =>
    let sum_states :=
      fold_left (fun acc s => (acc + abs s)%float) (states predicted)
        0%float in
    if (0 <? sum_states)%float then
      match py_index (states predicted) t,
            py_index (states predicted) (get_index_at_offset t 1),
            py_max (states predicted), py_min (states predicted) with
      | Ok p_t, Ok p_t1, Ok max_state, Ok min_state =>
        let score :=
          (((p_t * t1_weight + p_t1 * t2_weight) / sum_states)
           * SumMoveWeights)%float in
        let max_abs :=
          if (max_state <? abs min_state)%float then abs min_state
          else max_state in
        let score_range_normalizer :=
          ((max_abs / sum_states) * SumMoveWeights)%float in
        let neg_add := (score_range_normalizer + score)%float in
        let pos_add := (score_range_normalizer - score)%float in
        match math_pow (of_int (Z.of_nat (length (history e))))
                (scoreScaler e) with
        | None => None
        | Some scaler =>
          let neg_add := (neg_add * scaler)%float in
          let pos_add := (pos_add * scaler)%float in
          let score := (score * (scaler / ScoreScalerMiddle e))%float in
          Some (Ok ((- score)%float, pos_add, neg_add))
        end
      | Raise x, _, _, _ => Some (Raise x)
      | _, Raise x, _, _ => Some (Raise x)
      | _, _, Raise x, _ => Some (Raise x)
      | _, _, _, Raise x => Some (Raise x)
      end
    else Some (Ok (0%float, 0%float, 0%float))
  end.

End Binary64.

(** * Vocabulary of the properties *)

(** ** The templates, as the specification words them *)

(** Circular distance between bins [t] and [k]: the shorter way round. *)
Definition circular_distance (t k : Z) : Z :=
  Z.min ((k - t) mod StateCount) ((t - k) mod StateCount).

(** [1 - (4/StateCount) * circular_distance(t,k)] *)
Definition template_weight (t k : Z) : R :=
  1 - BaseDiffPerState * IZR (circular_distance t k).

(** Template [t] of the specification's CircularWeightModel. *)
Definition template (t : Z) : Move :=
  mkMove (map (template_weight t) (range StateCount)).

(** Evaluate the list and integer structure of a model term, leaving the
    real arithmetic in place. *)
Ltac eval_model :=
  cbv -[Rplus Rminus Rmult Rdiv Rinv Ropp IZR INR Rabs Rmax Rmin Rpower ln
        powerRZ Zfloor Req_dec_T Rlt_dec Rle_dec BaseDiffPerState].

(** The vector [get_move] builds from template [t] and the two weights. *)
Definition blend (t : Z) (w1 w2 : R) : Move :=
  mkMove (map (fun k => template_weight t k * w1
                        + template_weight t (k - 1) * w2)
              (range StateCount)).

(** The angle after [if degrees == CircularRange: degrees = 0]. *)
Definition norm_degrees (degrees : R) : R :=
  if Req_dec_T degrees CircularRange then 0 else degrees.

(** ** Vectors and tensors by position *)

(** Entry [i] of a vector, and cell [d][i][j] of a tensor. *)
Definition vec (m : Move) (i : nat) : R := nth i (states m) 0.

Definition cell (w : list (list Move)) (d i j : nat) : R :=
  vec (nth i (nth d w []) (mkMove [])) j.

(** Shapes: a state vector has [StateCount] entries, a tensor is a list
    of [StateCount x StateCount] slices. *)
Definition vec_ok (m : Move) : Prop := length (states m) = 30%nat.

Definition tensor_ok (w : list (list Move)) : Prop :=
  Forall (fun wd => length wd = 30%nat /\ Forall vec_ok wd) w.

(** [w] with the cell [d][i][j] set to [x]. *)
Definition cell_update (w : list (list Move)) (d i j : nat) (x : R)
  : list (list Move) :=
  let wd := nth d w [] in
  let wi := nth i wd (mkMove []) in
  list_update w d (list_update wd i (mkMove (list_update (states wi) j x))).

(** [sumf f n] is [f 0 + ... + f (n-1)], added in that order. *)
Fixpoint sumf (f : nat -> R) (n : nat) : R :=
  match n with
  | O => 0
  | S k => sumf f k + f k
  end.

(** ** Engines *)

(** The engine [e] differs from [e0] in its weights only, and the weights
    keep their shape. *)
Definition frame (e0 e : Engine) : Prop :=
  e = set_weights (weights e) e0 /\ tensor_ok (weights e) /\
  length (weights e) = length (weights e0).

(** A well-formed engine: vectors and tensor have their shapes, there is
    one tensor slice per lag, and the history fits. *)
Definition engine_ok (e : Engine) : Prop :=
  Forall vec_ok (history e) /\ tensor_ok (weights e) /\
  (length (history e) <= length (weights e))%nat /\
  history_depth e = Z.of_nat (length (weights e)).

(** The history after [insert(0, move)] and the bounded [pop()]. *)
Definition push_history (depth : Z) (move : Move) (h : list Move)
  : list Move :=
  if (depth <? Z.of_nat (length (move :: h)))%Z then removelast (move :: h)
  else move :: h.

(** The prediction as a sum over lags and bins of the pre-call tensor. *)
Definition predicted_sum (h : list Move) (w : list (list Move)) (i : nat)
  : R :=
  sumf (fun d =>
          sumf (fun j => vec (nth d h (mkMove [])) j * cell w d i j) 30)
       (length h).

(** The two sequential passes of the specification: accumulate the
    prediction from the tensor as it is, then update the tensor. *)
Definition accumulate_pass (h : list Move) (w : list (list Move)) : Move :=
  mkMove (map (predicted_sum h w) (seq 0 30)).

Definition update_pass (v : Move) (h : list Move) (w : list (list Move))
  : list (list Move) :=
  map (fun d =>
         if (d <? length h)%nat then
           map (fun i =>
                  mkMove (map (fun j => cell w d i j
                                        + vec v i * vec (nth d h (mkMove [])) j)
                              (seq 0 30)))
               (seq 0 30)
         else nth d w [])
      (seq 0 (length w)).

(** One freshly allocated tensor slice: [StateCount] zero vectors. *)
Definition zero_slice : list Move :=
  map (fun _ => Move_new StateCount) (range StateCount).

(** What [__init__] returns for a depth above 1. *)
Definition fresh_engine (depth : Z) : Engine :=
  mkEngine depth [] (repeat zero_slice (Z.to_nat depth))
    (1 / ln (IZR depth)) (Rpower (IZR depth / 2) (1 / ln (IZR depth))).

(** The scaling attributes stay as [__init__] makes them. *)
Definition scaler_ok (e : Engine) : Prop :=
  0 < scoreScaler e /\ 0 < ScoreScalerMiddle e.

(** ** What the tensor holds *)

(** The correlation the cell [d][i][j] has accumulated once the vectors
    [vs] have been recorded in order: every move [k > d] contributes its
    bin [i] times bin [j] of the move [d + 1] places before it. *)
Definition correlation (vs : list Move) (d i j : nat) : R :=
  sumf (fun k =>
          if (d <? k)%nat
          then vec (nth k vs (mkMove [])) i
               * vec (nth (k - d - 1) vs (mkMove [])) j
          else 0)
       (length vs).

(** The engine holds the round [vs]: its history is the last
    [history_depth] vectors, newest first, and its tensor their
    correlations. *)
Definition holds_round (vs : list Move) (e : Engine) : Prop :=
  history e = firstn (length (weights e)) (rev vs) /\
  forall d i j, (d < length (weights e))%nat -> (i < 30)%nat ->
    (j < 30)%nat -> cell (weights e) d i j = correlation vs d i j.

(** A predicted vector with weight: one entry 2, the others 1. *)
Definition sample_prediction : Move := mkMove (2 :: repeat 1 29).

(** The binary64 attributes of an engine of depth 2 after its first move:
    [scoreScaler] is [1 / math.log(2)], [ScoreScalerMiddle] is
    [math.pow(1.0, scoreScaler)], and the history holds one vector, of
    which [get_scoring_weight] reads only the count. *)
Definition binary64_engine : Binary64.Engine :=
  Binary64.mkEngine [Binary64.Move_new 30] 0x1.71547652b82fep+0%float
    1%float.

(** The predicted vector [3.9, 3.9, 0, ..., 0] in binary64. *)
Definition binary64_prediction : Binary64.Move :=
  Binary64.mkMove
    (0x1.f333333333333p+1%float :: 0x1.f333333333333p+1%float
     :: repeat 0%float 28).

(** ** The inner product of two move vectors *)










(** * Properties *)

(** ** [initialize] builds the specification's templates *)

Lemma MoveWeights_eq : MoveWeights = map template (range StateCount).
Proof. eval_model. reflexivity. Qed.

(** ** Lists indexed by ints *)

Lemma range_nat (n : nat) : range (Z.of_nat n) = map Z.of_nat (seq 0 n).
Proof.
  unfold range, range2. rewrite Z.sub_0_r, Nat2Z.id.
  apply map_ext. intros k. apply Z.add_0_l.
Qed.

Lemma py_norm_index_nat (n k : nat) :
  (k < n)%nat -> py_norm_index n (Z.of_nat k) = Ok k.
Proof.
  intros Hk. unfold py_norm_index.
  destruct (Z.ltb_spec (Z.of_nat k) 0); [lia|].
  destruct (Z.leb_spec 0 (Z.of_nat k)); [|lia].
  destruct (Z.ltb_spec (Z.of_nat k) (Z.of_nat n)); [|lia].
  simpl. now rewrite Nat2Z.id.
Qed.

Lemma py_norm_index_neg (n k : nat) :
  (k < n)%nat -> py_norm_index n (Z.of_nat k - Z.of_nat n) = Ok k.
Proof.
  intros Hk. unfold py_norm_index.
  destruct (Z.ltb_spec (Z.of_nat k - Z.of_nat n) 0); [|lia].
  replace (Z.of_nat k - Z.of_nat n + Z.of_nat n)%Z with (Z.of_nat k) by lia.
  destruct (Z.leb_spec 0 (Z.of_nat k)); [|lia].
  destruct (Z.ltb_spec (Z.of_nat k) (Z.of_nat n)); [|lia].
  simpl. now rewrite Nat2Z.id.
Qed.

Lemma py_norm_index_out (n : nat) (i : Z) :
  (i < - Z.of_nat n \/ Z.of_nat n <= i)%Z ->
  py_norm_index n i = Raise IndexError.
Proof.
  intros Hi. unfold py_norm_index.
  destruct (Z.ltb_spec i 0).
  - destruct (Z.leb_spec 0 (i + Z.of_nat n)); [lia | reflexivity].
  - destruct (Z.leb_spec 0 i); [|lia].
    destruct (Z.ltb_spec i (Z.of_nat n)); [lia | reflexivity].
Qed.

Lemma py_index_nat {A : Type} (l : list A) (k : nat) (d : A) :
  (k < length l)%nat -> py_index l (Z.of_nat k) = Ok (nth k l d).
Proof.
  intros Hk. unfold py_index. rewrite py_norm_index_nat by assumption.
  simpl. now rewrite (nth_error_nth' l d Hk).
Qed.

Lemma py_index_neg {A : Type} (l : list A) (k : nat) (d : A) :
  (k < length l)%nat ->
  py_index l (Z.of_nat k - Z.of_nat (length l)) = Ok (nth k l d).
Proof.
  intros Hk. unfold py_index. rewrite py_norm_index_neg by assumption.
  simpl. now rewrite (nth_error_nth' l d Hk).
Qed.

Lemma py_index_out {A : Type} (l : list A) (i : Z) :
  (i < - Z.of_nat (length l) \/ Z.of_nat (length l) <= i)%Z ->
  py_index l i = Raise IndexError.
Proof.
  intros Hi. unfold py_index. now rewrite py_norm_index_out.
Qed.

Lemma py_setitem_nat {A : Type} (l : list A) (k : nat) (x : A) :
  (k < length l)%nat -> py_setitem l (Z.of_nat k) x = Ok (list_update l k x).
Proof.
  intros Hk. unfold py_setitem. now rewrite py_norm_index_nat.
Qed.

Lemma list_update_length {A : Type} (l : list A) (k : nat) (x : A) :
  length (list_update l k x) = length l.
Proof.
  revert k. induction l as [|a l IH]; intros [|k]; simpl; auto.
Qed.

Lemma nth_list_update_eq {A : Type} (l : list A) (k : nat) (x d : A) :
  (k < length l)%nat -> nth k (list_update l k x) d = x.
Proof.
  revert k. induction l as [|a l IH]; intros [|k]; simpl; intros Hk;
    try lia; auto. apply IH. lia.
Qed.

Lemma nth_list_update_neq {A : Type} (l : list A) (k k' : nat) (x d : A) :
  k' <> k -> nth k' (list_update l k x) d = nth k' l d.
Proof.
  revert k k'. induction l as [|a l IH]; intros [|k] [|k'] Hk; simpl;
    try congruence; auto.
Qed.

(** ** The circular index *)

Lemma get_index_at_offset_mod (t offset : Z) :
  get_index_at_offset t offset = ((t + offset) mod StateCount)%Z.
Proof.
  unfold get_index_at_offset. cbv zeta.
  rewrite Z.mod_eq by (unfold StateCount; lia). reflexivity.
Qed.

Lemma get_index_at_offset_range (t offset : Z) :
  (0 <= get_index_at_offset t offset < StateCount)%Z.
Proof.
  rewrite get_index_at_offset_mod. apply Z.mod_pos_bound.
  unfold StateCount. lia.
Qed.

Lemma circular_distance_offset (t j : Z) :
  circular_distance t (get_index_at_offset t j)
  = Z.min (j mod StateCount) ((- j) mod StateCount).
Proof.
  unfold circular_distance. rewrite get_index_at_offset_mod.
  rewrite Zminus_mod_idemp_l, Zminus_mod_idemp_r.
  f_equal; f_equal; lia.
Qed.

Lemma circular_distance_sym_offset (t j : Z) :
  circular_distance t (get_index_at_offset t j)
  = circular_distance t (get_index_at_offset t (- j)).
Proof.
  rewrite !circular_distance_offset, Z.opp_involutive. apply Z.min_comm.
Qed.

(** ** The templates built by [initialize] *)

Lemma length_range (n : Z) : length (range n) = Z.to_nat n.
Proof.
  unfold range, range2. now rewrite length_map, length_seq, Z.sub_0_r.
Qed.

Lemma nth_range (n : nat) (k : nat) :
  (k < n)%nat -> nth k (range (Z.of_nat n)) 0%Z = Z.of_nat k.
Proof.
  intros Hk. rewrite range_nat.
  rewrite (nth_indep _ 0%Z (Z.of_nat 0)) by now rewrite length_map, length_seq.
  rewrite map_nth, seq_nth by assumption. reflexivity.
Qed.

Lemma MoveWeights_length : length MoveWeights = 30%nat.
Proof. rewrite MoveWeights_eq. reflexivity. Qed.

Lemma MoveWeights_nth (t : nat) :
  (t < 30)%nat -> nth t MoveWeights (mkMove []) = template (Z.of_nat t).
Proof.
  intros Ht. rewrite MoveWeights_eq.
  change StateCount with (Z.of_nat 30).
  rewrite (nth_indep _ (mkMove []) (template 0%Z))
    by now rewrite length_map, length_range.
  rewrite map_nth, nth_range by assumption. reflexivity.
Qed.

Lemma template_length (t : Z) : length (states (template t)) = 30%nat.
Proof. reflexivity. Qed.

Lemma template_nth (t : Z) (k : nat) :
  (k < 30)%nat ->
  nth k (states (template t)) 0 = template_weight t (Z.of_nat k).
Proof.
  intros Hk.
  change (states (template t))
    with (map (template_weight t) (range (Z.of_nat 30))).
  rewrite (nth_indep _ 0 (template_weight t 0%Z))
    by now rewrite length_map, length_range.
  rewrite map_nth, nth_range by assumption. reflexivity.
Qed.

Lemma template_index (t k : Z) :
  (0 <= k < StateCount)%Z ->
  py_index (states (template t)) k = Ok (template_weight t k).
Proof.
  intros Hk. unfold StateCount in Hk.
  rewrite <- (Z2Nat.id k) at 1 by lia.
  rewrite (py_index_nat _ _ 0) by (rewrite template_length; lia).
  rewrite template_nth by lia. now rewrite Z2Nat.id by lia.
Qed.

Lemma MoveWeights_index (t : Z) :
  (0 <= t < StateCount)%Z -> py_index MoveWeights t = Ok (template t).
Proof.
  intros Ht. unfold StateCount in Ht.
  rewrite <- (Z2Nat.id t) at 1 by lia.
  rewrite (py_index_nat _ _ (mkMove [])) by (rewrite MoveWeights_length; lia).
  rewrite MoveWeights_nth by lia. now rewrite Z2Nat.id by lia.
Qed.

Lemma template_sum_zero (t : Z) :
  (0 <= t < StateCount)%Z -> py_sum (states (template t)) = 0.
Proof.
  intros Ht. unfold StateCount in Ht.
  assert (H : exists n, (n < 30)%nat /\ t = Z.of_nat n)
    by (exists (Z.to_nat t); split; lia).
  destruct H as (n & Hn & ->). clear Ht.
  do 30 (destruct n as [|n];
         [eval_model; unfold BaseDiffPerState, StateCount; lra|]).
  lia.
Qed.

(** ** From an angle to a move vector *)

Lemma target_state_and_weights_spec (degrees : R) :
  exists t w1 w2,
    get_target_state_and_weights degrees = (t, w1, w2) /\
    t = Zfloor (30 * (norm_degrees degrees / 360)) /\
    w1 + w2 = 1 /\ 0 < w2 <= 1 / 30 /\
    w2 = (IZR t + 1) / 30 - norm_degrees degrees / 360.
Proof.
  unfold get_target_state_and_weights. fold (norm_degrees degrees).
  set (x := norm_degrees degrees). cbv zeta.
  do 3 eexists. split; [reflexivity|].
  unfold StateCount, CircularRange.
  pose proof (Zfloor_bound (30 * (x / 360))) as Hb.
  set (t := Zfloor (30 * (x / 360))) in *.
  rewrite plus_IZR.
  repeat split; try lra.
Qed.

Lemma target_state_range (degrees : R) (lo hi : Z) :
  IZR lo * 12 <= norm_degrees degrees < IZR hi * 12 ->
  (lo <= Zfloor (30 * (norm_degrees degrees / 360)) < hi)%Z.
Proof.
  intros Hd.
  pose proof (Zfloor_bound (30 * (norm_degrees degrees / 360))) as Hb.
  set (t := Zfloor _) in *.
  split.
  - apply Zfloor_lub. lra.
  - apply lt_IZR. lra.
Qed.

Lemma get_move_blend (degrees : R) (t : Z) (w1 w2 : R) :
  get_target_state_and_weights degrees = (t, w1, w2) ->
  (- 30 <= t < 30)%Z ->
  get_move degrees = Ok (blend t w1 w2).
Proof.
  intros Hg Ht. unfold get_move. rewrite Hg. clear Hg.
  assert (H : exists n, (n < 60)%nat /\ t = (Z.of_nat n - 30)%Z)
    by (exists (Z.to_nat (t + 30)); split; lia).
  destruct H as (n & Hn & ->). clear Ht.
  do 60 (destruct n as [|n]; [eval_model; reflexivity|]).
  lia.
Qed.

Lemma get_move_out (degrees : R) (t : Z) (w1 w2 : R) :
  get_target_state_and_weights degrees = (t, w1, w2) ->
  (t < - 30 \/ 30 <= t)%Z ->
  get_move degrees = Raise IndexError.
Proof.
  intros Hg Ht. unfold get_move. rewrite Hg.
  rewrite py_index_out by (rewrite MoveWeights_length; lia).
  reflexivity.
Qed.

Lemma blend_length (t : Z) (w1 w2 : R) :
  length (states (blend t w1 w2)) = 30%nat.
Proof. reflexivity. Qed.

Lemma blend_nth (t : Z) (w1 w2 : R) (k : nat) :
  (k < 30)%nat ->
  nth k (states (blend t w1 w2)) 0
  = template_weight t (Z.of_nat k) * w1
    + template_weight t (Z.of_nat k - 1) * w2.
Proof.
  intros Hk.
  change (states (blend t w1 w2))
    with (map (fun k => template_weight t k * w1
                        + template_weight t (k - 1) * w2)
              (range (Z.of_nat 30))).
  set (f := fun k : Z => _).
  rewrite (nth_indep _ 0 (f 0%Z)) by now rewrite length_map, length_range.
  rewrite map_nth, nth_range by assumption. reflexivity.
Qed.

(** ** Vectors and tensors by position *)

Lemma sumf_S (f : nat -> R) (k : nat) : sumf f (S k) = sumf f k + f k.
Proof. reflexivity. Qed.

Lemma sumf_ext (f g : nat -> R) (n : nat) :
  (forall k, (k < n)%nat -> f k = g k) -> sumf f n = sumf g n.
Proof.
  induction n as [|n IH]; intros H; simpl; [reflexivity|].
  rewrite IH, H by auto. reflexivity.
Qed.

Lemma tensor_ok_slice (w : list (list Move)) (d : nat) :
  tensor_ok w -> (d < length w)%nat ->
  length (nth d w []) = 30%nat /\ Forall vec_ok (nth d w []).
Proof.
  intros Hw Hd. unfold tensor_ok in Hw. rewrite Forall_forall in Hw.
  apply Hw. now apply nth_In.
Qed.

Lemma tensor_ok_row (w : list (list Move)) (d i : nat) :
  tensor_ok w -> (d < length w)%nat -> (i < 30)%nat ->
  vec_ok (nth i (nth d w []) (mkMove [])).
Proof.
  intros Hw Hd Hi. destruct (tensor_ok_slice w d Hw Hd) as [Hl Hf].
  rewrite Forall_forall in Hf. apply Hf. apply nth_In. lia.
Qed.

Lemma Forall_list_update {A : Type} (P : A -> Prop) (l : list A) (k : nat)
    (x : A) :
  Forall P l -> P x -> Forall P (list_update l k x).
Proof.
  intros Hl Hx. revert k.
  induction Hl as [|a l Ha Hl IH]; intros [|k]; simpl; auto.
Qed.

Lemma cell_update_length (w : list (list Move)) (d i j : nat) (x : R) :
  length (cell_update w d i j x) = length w.
Proof. unfold cell_update. apply list_update_length. Qed.

Lemma cell_update_ok (w : list (list Move)) (d i j : nat) (x : R) :
  tensor_ok w -> (d < length w)%nat -> (i < 30)%nat ->
  tensor_ok (cell_update w d i j x).
Proof.
  intros Hw Hd Hi. unfold cell_update, tensor_ok.
  destruct (tensor_ok_slice w d Hw Hd) as [Hl Hf].
  apply Forall_list_update; [exact Hw|]. split.
  - now rewrite list_update_length.
  - apply Forall_list_update; [exact Hf|].
    unfold vec_ok. simpl. rewrite list_update_length.
    now apply tensor_ok_row.
Qed.

Lemma cell_update_eq (w : list (list Move)) (d i j : nat) (x : R) :
  tensor_ok w -> (d < length w)%nat -> (i < 30)%nat -> (j < 30)%nat ->
  cell (cell_update w d i j x) d i j = x.
Proof.
  intros Hw Hd Hi Hj. unfold cell, cell_update, vec.
  destruct (tensor_ok_slice w d Hw Hd) as [Hl Hf].
  pose proof (tensor_ok_row w d i Hw Hd Hi) as Hr. unfold vec_ok in Hr.
  rewrite nth_list_update_eq by assumption.
  rewrite nth_list_update_eq by lia. simpl.
  apply nth_list_update_eq. lia.
Qed.

Lemma cell_update_neq (w : list (list Move)) (d i j d' i' j' : nat) (x : R) :
  ~ (d' = d /\ i' = i /\ j' = j) ->
  cell (cell_update w d i j x) d' i' j' = cell w d' i' j'.
Proof.
  intros Hne. unfold cell, cell_update, vec.
  destruct (Nat.eq_dec d' d) as [->|Hd];
    [|now rewrite nth_list_update_neq by assumption].
  destruct (Nat.lt_ge_cases d (length w)) as [Hlt|Hge].
  2:{ rewrite (nth_overflow (list_update _ _ _))
        by (rewrite list_update_length; exact Hge).
      now rewrite (nth_overflow w) by exact Hge. }
  rewrite nth_list_update_eq by assumption.
  destruct (Nat.eq_dec i' i) as [->|Hi];
    [|now rewrite nth_list_update_neq by assumption].
  destruct (Nat.lt_ge_cases i (length (nth d w []))) as [Hlt'|Hge'].
  2:{ rewrite (nth_overflow (list_update _ _ _))
        by (rewrite list_update_length; exact Hge').
      now rewrite (nth_overflow (nth d w [])) by exact Hge'. }
  rewrite nth_list_update_eq by assumption. simpl.
  apply nth_list_update_neq. intros ->. apply Hne. auto.
Qed.

Lemma weight_get_nat (w : list (list Move)) (d i j : nat) :
  tensor_ok w -> (d < length w)%nat -> (i < 30)%nat -> (j < 30)%nat ->
  weight_get w (Z.of_nat d) (Z.of_nat i) (Z.of_nat j) = Ok (cell w d i j).
Proof.
  intros Hw Hd Hi Hj. unfold weight_get.
  destruct (tensor_ok_slice w d Hw Hd) as [Hl Hf].
  pose proof (tensor_ok_row w d i Hw Hd Hi) as Hr. unfold vec_ok in Hr.
  rewrite (py_index_nat w d []) by assumption. simpl.
  rewrite (py_index_nat _ i (mkMove [])) by lia. simpl.
  rewrite (py_index_nat _ j 0) by lia. reflexivity.
Qed.

Lemma weight_set_nat (w : list (list Move)) (d i j : nat) (x : R) :
  tensor_ok w -> (d < length w)%nat -> (i < 30)%nat -> (j < 30)%nat ->
  weight_set w (Z.of_nat d) (Z.of_nat i) (Z.of_nat j) x
  = Ok (cell_update w d i j x).
Proof.
  intros Hw Hd Hi Hj. unfold weight_set.
  destruct (tensor_ok_slice w d Hw Hd) as [Hl Hf].
  pose proof (tensor_ok_row w d i Hw Hd Hi) as Hr. unfold vec_ok in Hr.
  rewrite (py_index_nat w d []) by assumption. simpl.
  rewrite (py_index_nat _ i (mkMove [])) by lia. simpl.
  rewrite py_setitem_nat by lia. simpl.
  rewrite py_setitem_nat by lia. simpl.
  rewrite py_setitem_nat by lia. reflexivity.
Qed.

(** ** The core loop *)

(** Loop rule for [for k in range(n)]: an invariant that every iteration
    re-establishes without raising holds at exit, and the loop returns. *)
Lemma mfoldM_range_inv {B : Type} (P : nat -> B -> Engine -> Prop)
    (f : B -> Z -> M B) (n : nat) (b : B) (e : Engine) :
  P O b e ->
  (forall k b1 e1, (k < n)%nat -> P k b1 e1 ->
     exists b2 e2, f b1 (Z.of_nat k) e1 = (Ok b2, e2) /\ P (S k) b2 e2) ->
  exists b' e', mfoldM f (range (Z.of_nat n)) b e = (Ok b', e') /\ P n b' e'.
Proof.
  intros H0 Hstep. rewrite range_nat.
  assert (G : forall m s b1 e1, (s + m = n)%nat -> P s b1 e1 ->
            exists b' e', mfoldM f (map Z.of_nat (seq s m)) b1 e1 = (Ok b', e')
                          /\ P n b' e').
  { induction m as [|m IH]; intros s b1 e1 Hs Hp.
    - exists b1, e1. simpl. split; [reflexivity|].
      now replace n with s by lia.
    - simpl. unfold mbind.
      destruct (Hstep s b1 e1) as (b2 & e2 & Hf & Hp2); [lia|exact Hp|].
      rewrite Hf. apply IH; [lia|exact Hp2]. }
  apply (G n O b e); [lia|exact H0].
Qed.

Lemma core_step_spec (hm : Move) (m_i : R) (d i j : nat) (pred : Move)
    (e : Engine) :
  vec_ok hm -> vec_ok pred -> tensor_ok (weights e) ->
  (d < length (weights e))%nat -> (i < 30)%nat -> (j < 30)%nat ->
  core_step hm m_i (Z.of_nat d) (Z.of_nat i) pred (Z.of_nat j) e
  = (Ok (mkMove (list_update (states pred) i
                   (vec pred i + vec hm j * cell (weights e) d i j))),
     set_weights
       (cell_update (weights e) d i j
          (cell (weights e) d i j + m_i * vec hm j)) e).
Proof.
  intros Hhm Hp Hw Hd Hi Hj. unfold vec_ok in Hhm, Hp.
  unfold core_step, mbind, lift, gets, modify, mret.
  rewrite (py_index_nat _ i 0) by lia.
  rewrite (py_index_nat _ j 0) by lia.
  rewrite weight_get_nat by assumption.
  rewrite py_setitem_nat by lia.
  rewrite weight_set_nat by assumption.
  reflexivity.
Qed.

Lemma frame_refl (e : Engine) : tensor_ok (weights e) -> frame e e.
Proof. intros Hw. repeat split; auto. now destruct e. Qed.

Lemma frame_step (e0 e1 : Engine) (d i j : nat) (x : R) :
  frame e0 e1 -> (d < length (weights e1))%nat -> (i < 30)%nat ->
  frame e0 (set_weights (cell_update (weights e1) d i j x) e1).
Proof.
  intros (He & Hw & Hl) Hd Hi. repeat split.
  - rewrite He at 2. reflexivity.
  - simpl. now apply cell_update_ok.
  - simpl. now rewrite cell_update_length.
Qed.

Lemma frame_trans (e0 e1 e2 : Engine) :
  frame e0 e1 -> frame e1 e2 -> frame e0 e2.
Proof.
  intros (He1 & Hw1 & Hl1) (He2 & Hw2 & Hl2). repeat split; auto.
  - rewrite He2 at 1. rewrite He1. reflexivity.
  - congruence.
Qed.

Lemma vec_update_eq (p : Move) (i : nat) (x : R) :
  vec_ok p -> (i < 30)%nat -> vec (mkMove (list_update (states p) i x)) i = x.
Proof.
  intros Hp Hi. unfold vec, vec_ok in *. simpl.
  apply nth_list_update_eq. lia.
Qed.

Lemma vec_update_neq (p : Move) (i i' : nat) (x : R) :
  i' <> i -> vec (mkMove (list_update (states p) i x)) i' = vec p i'.
Proof. intros Hi. unfold vec. simpl. now apply nth_list_update_neq. Qed.

Lemma vec_update_ok (p : Move) (i : nat) (x : R) :
  vec_ok p -> vec_ok (mkMove (list_update (states p) i x)).
Proof. unfold vec_ok. simpl. now rewrite list_update_length. Qed.

(** [for j in range(StateCount)], for one row [i] of one lag [d]. *)
Lemma inner_loop_spec (hm : Move) (m_i : R) (d i : nat) (pred0 : Move)
    (e0 : Engine) :
  vec_ok hm -> vec_ok pred0 -> tensor_ok (weights e0) ->
  (d < length (weights e0))%nat -> (i < 30)%nat ->
  exists pred e,
    mfoldM (core_step hm m_i (Z.of_nat d) (Z.of_nat i)) (range StateCount)
      pred0 e0 = (Ok pred, e) /\
    frame e0 e /\ vec_ok pred /\
    vec pred i
    = vec pred0 i + sumf (fun j => vec hm j * cell (weights e0) d i j) 30 /\
    (forall i', i' <> i -> vec pred i' = vec pred0 i') /\
    (forall j, (j < 30)%nat ->
       cell (weights e) d i j = cell (weights e0) d i j + m_i * vec hm j) /\
    (forall d' i' j', ~ (d' = d /\ i' = i /\ (j' < 30)%nat) ->
       cell (weights e) d' i' j' = cell (weights e0) d' i' j').
Proof.
  intros Hhm Hp0 Hw0 Hd Hi.
  change StateCount with (Z.of_nat 30).
  apply (mfoldM_range_inv
    (fun k pred e =>
       frame e0 e /\ vec_ok pred /\
       vec pred i
       = vec pred0 i + sumf (fun j => vec hm j * cell (weights e0) d i j) k /\
       (forall i', i' <> i -> vec pred i' = vec pred0 i') /\
       (forall j, (j < k)%nat ->
          cell (weights e) d i j = cell (weights e0) d i j + m_i * vec hm j) /\
       (forall d' i' j', ~ (d' = d /\ i' = i /\ (j' < k)%nat) ->
          cell (weights e) d' i' j' = cell (weights e0) d' i' j'))).
  - split; [now apply frame_refl|].
    repeat split; auto.
    + unfold sumf. lra.
    + intros j Hj. lia.
  - intros k p1 e1 Hk (Hf & Hp1 & A1 & A2 & B1 & B2).
    pose proof Hf as (He1 & Hw1 & Hl1).
    assert (Hd1 : (d < length (weights e1))%nat) by lia.
    rewrite core_step_spec by assumption.
    do 2 eexists. split; [reflexivity|].
    assert (Hck : cell (weights e1) d i k = cell (weights e0) d i k)
      by (apply B2; lia).
    split; [now apply frame_step|].
    split; [now apply vec_update_ok|].
    split; [|split; [|split]].
    + rewrite vec_update_eq by assumption. rewrite A1, Hck, (sumf_S _ k). lra.
    + intros i' Hi'. rewrite vec_update_neq by assumption. now apply A2.
    + intros j Hj. simpl weights.
      destruct (Nat.eq_dec j k) as [->|Hjk].
      * rewrite cell_update_eq by assumption. now rewrite Hck.
      * rewrite cell_update_neq by lia. apply B1. lia.
    + intros d' i' j' Hne. simpl weights.
      rewrite cell_update_neq by lia. apply B2. lia.
Qed.

(** [for i in range(StateCount)], for one lag [d]. *)
Lemma row_loop_spec (hm move : Move) (d : nat) (pred0 : Move) (e0 : Engine) :
  vec_ok hm -> vec_ok move -> vec_ok pred0 -> tensor_ok (weights e0) ->
  (d < length (weights e0))%nat ->
  exists pred e,
    mfoldM (core_row hm move (Z.of_nat d)) (range StateCount) pred0 e0
    = (Ok pred, e) /\
    frame e0 e /\ vec_ok pred /\
    (forall i, (i < 30)%nat ->
       vec pred i
       = vec pred0 i
         + sumf (fun j => vec hm j * cell (weights e0) d i j) 30) /\
    (forall i j, (i < 30)%nat -> (j < 30)%nat ->
       cell (weights e) d i j
       = cell (weights e0) d i j + vec move i * vec hm j) /\
    (forall d' i' j', ~ (d' = d /\ (i' < 30)%nat /\ (j' < 30)%nat) ->
       cell (weights e) d' i' j' = cell (weights e0) d' i' j').
Proof.
  intros Hhm Hmv Hp0 Hw0 Hd.
  change StateCount with (Z.of_nat 30).
  destruct (mfoldM_range_inv
    (fun k pred e =>
       frame e0 e /\ vec_ok pred /\
       (forall i, (i < k)%nat ->
          vec pred i
          = vec pred0 i
            + sumf (fun j => vec hm j * cell (weights e0) d i j) 30) /\
       (forall i, (k <= i)%nat -> vec pred i = vec pred0 i) /\
       (forall i j, (i < k)%nat -> (j < 30)%nat ->
          cell (weights e) d i j
          = cell (weights e0) d i j + vec move i * vec hm j) /\
       (forall d' i' j', ~ (d' = d /\ (i' < k)%nat /\ (j' < 30)%nat) ->
          cell (weights e) d' i' j' = cell (weights e0) d' i' j'))
    (core_row hm move (Z.of_nat d)) 30 pred0 e0)
    as (pred & e & Hrun & Hf & Hp & A1 & _ & B1 & B2).
  - split; [now apply frame_refl|].
    repeat split; auto; intros; lia.
  - intros k p1 e1 Hk (Hf & Hp1 & A1 & A2 & B1 & B2).
    pose proof Hf as (He1 & Hw1 & Hl1).
    assert (Hd1 : (d < length (weights e1))%nat) by lia.
    destruct (tensor_ok_slice _ d Hw1 Hd1) as [Hsl _].
    unfold core_row, mbind, gets, lift.
    rewrite (py_index_nat _ d []) by assumption.
    rewrite (py_index_nat _ k (mkMove [])) by lia.
    rewrite (py_index_nat _ k 0) by (unfold vec_ok in Hmv; lia).
    destruct (inner_loop_spec hm (nth k (states move) 0) d k p1 e1)
      as (p2 & e2 & Hrun & Hf2 & Hp2 & C1 & C2 & D1 & D2); auto.
    change (Z.of_nat 30) with StateCount. rewrite Hrun.
    exists p2, e2. split; [reflexivity|].
    split; [now apply (frame_trans e0 e1 e2)|].
    split; [exact Hp2|].
    assert (Hrow : forall j, cell (weights e1) d k j = cell (weights e0) d k j)
      by (intros j; apply B2; lia).
    split; [|split; [|split]].
    + intros i Hi. destruct (Nat.eq_dec i k) as [->|Hik].
      * rewrite C1, A2 by lia. f_equal.
        apply sumf_ext. intros j _. now rewrite Hrow.
      * rewrite C2 by assumption. apply A1. lia.
    + intros i Hi. rewrite C2 by lia. apply A2. lia.
    + intros i j Hi Hj. destruct (Nat.eq_dec i k) as [->|Hik].
      * rewrite D1 by assumption. now rewrite Hrow.
      * rewrite D2 by lia. apply B1; lia.
    + intros d' i' j' Hne. rewrite D2 by lia. apply B2. lia.
  - exists pred, e. repeat split; auto; apply Hf.
Qed.

Lemma frame_history (e0 e : Engine) : frame e0 e -> history e = history e0.
Proof. intros (He & _). rewrite He. reflexivity. Qed.

Lemma vec_Move_new (i : nat) : vec (Move_new StateCount) i = 0.
Proof.
  change (vec (Move_new StateCount) i) with (nth i (repeat 0 30) 0).
  apply nth_repeat.
Qed.

Lemma Forall_nth_ok (h : list Move) (d : nat) :
  Forall vec_ok h -> (d < length h)%nat -> vec_ok (nth d h (mkMove [])).
Proof.
  intros Hh Hd. rewrite Forall_forall in Hh. apply Hh. now apply nth_In.
Qed.

(** [for d in range(len(self.history))]: the whole core loop. *)
Lemma lag_loop_spec (move : Move) (e0 : Engine) :
  vec_ok move -> engine_ok e0 ->
  exists pred e,
    mfoldM (core_lag move) (range (Z.of_nat (length (history e0))))
      (Move_new StateCount) e0 = (Ok pred, e) /\
    frame e0 e /\ vec_ok pred /\
    (forall i, (i < 30)%nat ->
       vec pred i = predicted_sum (history e0) (weights e0) i) /\
    (forall d i j,
       (d < length (history e0))%nat -> (i < 30)%nat -> (j < 30)%nat ->
       cell (weights e) d i j
       = cell (weights e0) d i j
         + vec move i * vec (nth d (history e0) (mkMove [])) j) /\
    (forall d i j,
       ~ ((d < length (history e0))%nat /\ (i < 30)%nat /\ (j < 30)%nat) ->
       cell (weights e) d i j = cell (weights e0) d i j).
Proof.
  intros Hmv (Hh & Hw0 & Hlen & _).
  set (h := history e0) in *. set (w0 := weights e0) in *.
  destruct (mfoldM_range_inv
    (fun k pred e =>
       frame e0 e /\ vec_ok pred /\
       (forall i, (i < 30)%nat ->
          vec pred i
          = sumf (fun d =>
                    sumf (fun j => vec (nth d h (mkMove [])) j * cell w0 d i j)
                         30) k) /\
       (forall d i j, (d < k)%nat -> (i < 30)%nat -> (j < 30)%nat ->
          cell (weights e) d i j
          = cell w0 d i j + vec move i * vec (nth d h (mkMove [])) j) /\
       (forall d i j, ~ ((d < k)%nat /\ (i < 30)%nat /\ (j < 30)%nat) ->
          cell (weights e) d i j = cell w0 d i j))
    (core_lag move) (length h) (Move_new StateCount) e0)
    as (pred & e & Hrun & Hf & Hp & A & B1 & B2).
  - split; [now apply frame_refl|].
    split; [reflexivity|].
    repeat split; auto; intros; try lia. apply vec_Move_new.
  - intros k p1 e1 Hk (Hf & Hp1 & A & B1 & B2).
    pose proof Hf as (He1 & Hw1 & Hl1). fold w0 in Hl1.
    assert (Hd1 : (k < length (weights e1))%nat) by lia.
    unfold core_lag, mbind, gets, lift.
    rewrite (frame_history e0 e1 Hf). fold h.
    rewrite (py_index_nat h k (mkMove [])) by assumption.
    rewrite (py_index_nat _ k []) by assumption.
    destruct (row_loop_spec (nth k h (mkMove [])) move k p1 e1)
      as (p2 & e2 & Hrun & Hf2 & Hp2 & C & D1 & D2);
      auto using Forall_nth_ok.
    rewrite Hrun. exists p2, e2. split; [reflexivity|].
    split; [now apply (frame_trans e0 e1 e2)|].
    split; [exact Hp2|].
    assert (Hsl : forall i j, cell (weights e1) k i j = cell w0 k i j)
      by (intros i j; apply B2; lia).
    split; [|split].
    + intros i Hi. rewrite C, A, (sumf_S _ k) by assumption. f_equal.
      apply sumf_ext. intros j _. now rewrite Hsl.
    + intros d i j Hd Hi Hj. destruct (Nat.eq_dec d k) as [->|Hdk].
      * rewrite D1 by assumption. now rewrite Hsl.
      * rewrite D2 by lia. apply B1; lia.
    + intros d i j Hne. rewrite D2 by lia. apply B2. lia.
  - exists pred, e. repeat split; auto; apply Hf.
Qed.

Lemma removelast_length {A : Type} (l : list A) :
  length (removelast l) = pred (length l).
Proof.
  induction l as [|a [|b l] IH]; simpl in *; auto.
Qed.

Lemma Forall_removelast {A : Type} (P : A -> Prop) (l : list A) :
  Forall P l -> Forall P (removelast l).
Proof.
  induction 1 as [|a l Ha Hl IH]; simpl; auto.
  destruct l; auto.
Qed.

Lemma push_history_ok (depth : Z) (move : Move) (h : list Move) :
  vec_ok move -> Forall vec_ok h -> Forall vec_ok (push_history depth move h).
Proof.
  intros Hm Hh. unfold push_history.
  destruct (_ <? _)%Z; [apply Forall_removelast|]; auto.
Qed.

Lemma push_history_length (depth : Z) (move : Move) (h : list Move) :
  (Z.of_nat (length h) <= depth)%Z ->
  (Z.of_nat (length (push_history depth move h)) <= depth)%Z /\
  (length (push_history depth move h)
   = if (depth <? Z.of_nat (S (length h)))%Z then length h
     else S (length h)).
Proof.
  intros Hl. unfold push_history.
  change (length (move :: h)) with (S (length h)).
  destruct (Z.ltb_spec depth (Z.of_nat (S (length h)))) as [H|H].
  - rewrite removelast_length.
    change (length (move :: h)) with (S (length h)).
    rewrite Nat.pred_succ. split; [lia | reflexivity].
  - change (length (move :: h)) with (S (length h)).
    split; [lia | reflexivity].
Qed.

(** What one call of [record_move_and_get_predicted] does to a well-formed
    engine, for an angle whose bin [t] indexes a template. *)
Lemma record_move_spec (degrees : R) (t : Z) (w1 w2 : R) (e0 : Engine) :
  get_target_state_and_weights degrees = (t, w1, w2) ->
  (- 30 <= t < 30)%Z -> engine_ok e0 ->
  exists pred w',
    record_move_and_get_predicted degrees e0
    = (Ok pred,
       mkEngine (history_depth e0)
         (push_history (history_depth e0) (blend t w1 w2) (history e0))
         w' (scoreScaler e0) (ScoreScalerMiddle e0)) /\
    vec_ok pred /\ tensor_ok w' /\ length w' = length (weights e0) /\
    (forall i, (i < 30)%nat ->
       vec pred i = predicted_sum (history e0) (weights e0) i) /\
    (forall d i j,
       (d < length (history e0))%nat -> (i < 30)%nat -> (j < 30)%nat ->
       cell w' d i j
       = cell (weights e0) d i j
         + vec (blend t w1 w2) i * vec (nth d (history e0) (mkMove [])) j) /\
    (forall d i j,
       ~ ((d < length (history e0))%nat /\ (i < 30)%nat /\ (j < 30)%nat) ->
       cell w' d i j = cell (weights e0) d i j).
Proof.
  intros Hg Ht Hok.
  destruct (lag_loop_spec (blend t w1 w2) e0 (blend_length t w1 w2) Hok)
    as (pred & e & Hrun & Hf & Hp & A & B1 & B2).
  exists pred, (weights e).
  unfold record_move_and_get_predicted, mbind, lift, gets, modify, mret.
  rewrite (get_move_blend degrees t w1 w2 Hg Ht). rewrite Hrun.
  destruct Hf as (He & Hw & Hl).
  split.
  - rewrite He. unfold push_history. simpl.
    destruct (_ <? _)%Z; reflexivity.
  - repeat split; auto.
Qed.

Lemma nth_map_seq {A : Type} (f : nat -> A) (n k : nat) (d : A) :
  (k < n)%nat -> nth k (map f (seq 0 n)) d = f k.
Proof.
  intros Hk.
  rewrite (nth_indep _ d (f O)) by now rewrite length_map, length_seq.
  rewrite map_nth, seq_nth by assumption. reflexivity.
Qed.

Lemma Move_ext (m m' : Move) :
  vec_ok m -> vec_ok m' ->
  (forall i, (i < 30)%nat -> vec m i = vec m' i) -> m = m'.
Proof.
  destruct m as [s], m' as [s']. unfold vec_ok, vec. simpl.
  intros Hs Hs' H. f_equal.
  apply (nth_ext s s' 0 0); [congruence|].
  intros n Hn. apply H. lia.
Qed.

Lemma tensor_ext (w w' : list (list Move)) :
  tensor_ok w -> tensor_ok w' -> length w = length w' ->
  (forall d i j, (d < length w)%nat -> (i < 30)%nat -> (j < 30)%nat ->
     cell w d i j = cell w' d i j) ->
  w = w'.
Proof.
  intros Hw Hw' Hl H.
  apply (nth_ext w w' [] []); [exact Hl|].
  intros d Hd.
  destruct (tensor_ok_slice w d Hw Hd) as [Hs _].
  destruct (tensor_ok_slice w' d Hw') as [Hs' _]; [lia|].
  apply (nth_ext _ _ (mkMove []) (mkMove [])); [congruence|].
  intros i Hi. rewrite Hs in Hi.
  apply Move_ext.
  - now apply tensor_ok_row.
  - apply tensor_ok_row; auto. lia.
  - intros j Hj. now apply H.
Qed.

Lemma accumulate_pass_ok (h : list Move) (w : list (list Move)) :
  vec_ok (accumulate_pass h w).
Proof. reflexivity. Qed.

Lemma accumulate_pass_vec (h : list Move) (w : list (list Move)) (i : nat) :
  (i < 30)%nat -> vec (accumulate_pass h w) i = predicted_sum h w i.
Proof.
  intros Hi. unfold vec, accumulate_pass. cbn [states].
  now apply nth_map_seq.
Qed.

Lemma update_pass_length (v : Move) (h : list Move) (w : list (list Move)) :
  length (update_pass v h w) = length w.
Proof. unfold update_pass. now rewrite length_map, length_seq. Qed.

Lemma update_pass_nth (v : Move) (h : list Move) (w : list (list Move))
    (d : nat) :
  (d < length w)%nat ->
  nth d (update_pass v h w) []
  = if (d <? length h)%nat then
      map (fun i =>
             mkMove (map (fun j => cell w d i j
                                   + vec v i * vec (nth d h (mkMove [])) j)
                         (seq 0 30)))
          (seq 0 30)
    else nth d w [].
Proof. intros Hd. unfold update_pass. now rewrite nth_map_seq. Qed.

Lemma update_pass_ok (v : Move) (h : list Move) (w : list (list Move)) :
  tensor_ok w -> tensor_ok (update_pass v h w).
Proof.
  intros Hw. unfold tensor_ok. apply Forall_forall. intros wd Hin.
  destruct (In_nth _ _ [] Hin) as (d & Hd & <-).
  rewrite update_pass_length in Hd. rewrite update_pass_nth by assumption.
  destruct (d <? length h)%nat.
  - split; [now rewrite length_map, length_seq|].
    apply Forall_forall. intros m Hm. apply in_map_iff in Hm.
    destruct Hm as (i & <- & _). reflexivity.
  - now apply tensor_ok_slice.
Qed.

Lemma update_pass_cell (v : Move) (h : list Move) (w : list (list Move))
    (d i j : nat) :
  (d < length w)%nat -> (i < 30)%nat -> (j < 30)%nat ->
  cell (update_pass v h w) d i j
  = if (d <? length h)%nat
    then cell w d i j + vec v i * vec (nth d h (mkMove [])) j
    else cell w d i j.
Proof.
  intros Hd Hi Hj. unfold cell at 1. rewrite update_pass_nth by assumption.
  destruct (d <? length h)%nat; [|reflexivity].
  rewrite nth_map_seq by assumption. unfold vec at 1. cbn [states].
  now rewrite nth_map_seq.
Qed.

(** [get_move] either blends a template or raises IndexError. *)
Lemma get_move_cases (degrees : R) :
  exists t w1 w2,
    get_target_state_and_weights degrees = (t, w1, w2) /\
    (((- 30 <= t < 30)%Z /\ get_move degrees = Ok (blend t w1 w2)) \/
     ((t < - 30 \/ 30 <= t)%Z /\ get_move degrees = Raise IndexError)).
Proof.
  destruct (target_state_and_weights_spec degrees) as (t & w1 & w2 & Hg & _).
  exists t, w1, w2. split; [exact Hg|].
  destruct (Z_lt_ge_dec t (- 30)).
  { right. split; [lia|]. apply (get_move_out degrees t w1 w2 Hg). lia. }
  destruct (Z_lt_ge_dec t 30).
  { left. split; [lia|]. apply (get_move_blend degrees t w1 w2 Hg). lia. }
  right. split; [lia|]. apply (get_move_out degrees t w1 w2 Hg). lia.
Qed.

(** C2: for every well-formed engine and every angle that [get_move]
    accepts, [record_move_and_get_predicted] returns the predicted vector
    whose entry [i] is the sum, over the lags [d < len(history)] and the
    bins [j], of [history[d][j] * tensor_pre[d][i][j]], where [tensor_pre]
    is the tensor at call entry; on return every cell of those lags equals
    [tensor_pre[d][i][j] + vector[i] * history_pre[d][j]]; so the
    interleaved loop equals the two sequential passes, accumulate then
    update. *)
Theorem record_move_two_passes (degrees : R) (vector : Move) (e0 : Engine) :
  get_move degrees = Ok vector -> engine_ok e0 ->
  exists pred e,
    record_move_and_get_predicted degrees e0 = (Ok pred, e) /\
    (forall i, (i < 30)%nat ->
       vec pred i = predicted_sum (history e0) (weights e0) i) /\
    (forall d i j,
       (d < length (history e0))%nat -> (i < 30)%nat -> (j < 30)%nat ->
       cell (weights e) d i j
       = cell (weights e0) d i j
         + vec vector i * vec (nth d (history e0) (mkMove [])) j) /\
    pred = accumulate_pass (history e0) (weights e0) /\
    weights e = update_pass vector (history e0) (weights e0).
Proof.
  intros Hmv Hok.
  destruct (get_move_cases degrees) as (t & w1 & w2 & Hg & [[Ht Hb]|[_ Hr]]);
    [|congruence].
  assert (vector = blend t w1 w2) as -> by congruence.
  destruct (record_move_spec degrees t w1 w2 e0 Hg Ht Hok)
    as (pred & w' & Hrun & Hp & Hw' & Hl & A & B1 & B2).
  do 2 eexists. split; [exact Hrun|]. simpl weights.
  destruct Hok as (_ & Hw0 & Hlen & _).
  repeat split; auto.
  - apply Move_ext; auto using accumulate_pass_ok.
    intros i Hi. now rewrite A, accumulate_pass_vec.
  - apply tensor_ext; auto using update_pass_ok.
    + now rewrite update_pass_length.
    + intros d i j Hd Hi Hj. rewrite update_pass_cell by lia.
      destruct (Nat.ltb_spec d (length (history e0))).
      * now apply B1.
      * apply B2. lia.
Qed.

(** ** Construction *)

Lemma init_weights_repeat (l : list Z) (acc : list (list Move)) :
  fold_left (fun (w : list (list Move)) (d : Z) => w ++ [zero_slice]) l acc
  = acc ++ repeat zero_slice (length l).
Proof.
  revert acc. induction l as [|d l IH]; intros acc; simpl.
  - now rewrite app_nil_r.
  - rewrite IH, <- app_assoc. reflexivity.
Qed.

Lemma zero_tensor_ok (n : nat) : tensor_ok (repeat zero_slice n).
Proof.
  unfold tensor_ok. apply Forall_forall. intros wd Hin.
  apply repeat_spec in Hin. subst wd. split; [reflexivity|].
  apply Forall_forall. intros m Hm. unfold zero_slice in Hm.
  apply in_map_iff in Hm. destruct Hm as (k & <- & _). reflexivity.
Qed.

Lemma zero_slice_nth (i : nat) :
  nth i zero_slice (mkMove []) = Move_new StateCount
  \/ nth i zero_slice (mkMove []) = mkMove [].
Proof.
  destruct (Nat.lt_ge_cases i (length zero_slice)) as [Hi|Hi].
  - left. unfold zero_slice in *.
    rewrite (nth_indep _ (mkMove []) (Move_new StateCount)) by exact Hi.
    exact (map_nth (fun _ : Z => Move_new StateCount) (range StateCount)
             0%Z i).
  - right. now apply nth_overflow.
Qed.

Lemma zero_tensor_cell (n d i j : nat) : cell (repeat zero_slice n) d i j = 0.
Proof.
  unfold cell.
  assert (Hd : nth d (repeat zero_slice n) [] = zero_slice
               \/ nth d (repeat zero_slice n) [] = []).
  { destruct (Nat.lt_ge_cases d n) as [Hd|Hd].
    - left. rewrite (nth_indep _ [] zero_slice) by now rewrite repeat_length.
      apply nth_repeat.
    - right. apply nth_overflow. now rewrite repeat_length. }
  destruct Hd as [-> | ->].
  - destruct (zero_slice_nth i) as [-> | ->].
    + apply vec_Move_new.
    + unfold vec. simpl. now destruct j.
  - unfold vec. destruct i, j; reflexivity.
Qed.

Lemma ln_pos (x : R) : 1 < x -> 0 < ln x.
Proof. intros Hx. rewrite <- ln_1. apply ln_increasing; lra. Qed.

Lemma float_int_bound_large :
  (9223372036854775808 <= float_int_bound)%Z.
Proof. unfold Z.le. vm_compute. discriminate. Qed.

Lemma init_ok (depth : Z) :
  (1 < depth < float_int_bound)%Z ->
  __init__ depth = Ok (fresh_engine depth).
Proof.
  intros Hd. unfold __init__, math_log, py_div, py_float, math_pow.
  assert (H2 : 2 <= IZR depth) by (apply IZR_le; lia).
  pose proof (ln_pos (IZR depth)) as Hln.
  destruct (Rle_dec (IZR depth) 0); [lra|]. cbn [rbind].
  destruct (Req_dec_T (ln (IZR depth)) 0); [lra|]. cbn [rbind].
  destruct (Z.ltb_spec (Z.abs depth) float_int_bound); [|lia].
  cbn [rbind].
  destruct (Rlt_dec 0 (IZR depth / 2)); [|lra]. cbn [rbind].
  fold zero_slice. rewrite init_weights_repeat, length_range. reflexivity.
Qed.

Lemma init_overflow (depth : Z) :
  (float_int_bound <= depth)%Z -> __init__ depth = Raise OverflowError.
Proof.
  intros Hd. pose proof float_int_bound_large as Hb.
  unfold __init__, math_log, py_div, py_float.
  assert (H2 : 2 <= IZR depth) by (apply IZR_le; lia).
  pose proof (ln_pos (IZR depth)) as Hln.
  destruct (Rle_dec (IZR depth) 0); [lra|]. cbn [rbind].
  destruct (Req_dec_T (ln (IZR depth)) 0); [lra|]. cbn [rbind].
  destruct (Z.ltb_spec (Z.abs depth) float_int_bound); [lia|].
  reflexivity.
Qed.


Lemma init_low (depth : Z) :
  (depth <= 0)%Z -> __init__ depth = Raise ValueError.
Proof.
  intros Hd. unfold __init__, math_log.
  assert (IZR depth <= 0) by (apply IZR_le; lia).
  destruct (Rle_dec (IZR depth) 0); [reflexivity | lra].
Qed.

Lemma init_one : __init__ 1 = Raise ZeroDivisionError.
Proof.
  unfold __init__, math_log, py_div.
  destruct (Rle_dec 1 0); [lra|]. simpl.
  destruct (Req_dec_T (ln 1) 0) as [_|H]; [reflexivity|].
  now rewrite ln_1 in H.
Qed.

(** The depths [__init__] accepts, and what it returns for them. *)
Lemma init_accepts (depth : Z) (e : Engine) :
  __init__ depth = Ok e ->
  (1 < depth < float_int_bound)%Z /\ e = fresh_engine depth.
Proof.
  intros Hinit.
  destruct (Z_le_gt_dec depth 1) as [Hle|Hgt].
  { destruct (Z.eq_dec depth 1) as [->|Hne].
    - rewrite init_one in Hinit. discriminate.
    - rewrite init_low in Hinit by lia. discriminate. }
  destruct (Z_lt_ge_dec depth float_int_bound) as [Hlt|Hge].
  - rewrite init_ok in Hinit by lia. inversion Hinit. split; [lia|].
    reflexivity.
  - rewrite init_overflow in Hinit by lia. discriminate.
Qed.

Lemma fresh_engine_ok (depth : Z) :
  (1 < depth)%Z ->
  engine_ok (fresh_engine depth) /\ scaler_ok (fresh_engine depth).
Proof.
  intros Hd. split.
  - repeat split; simpl.
    + constructor.
    + apply zero_tensor_ok.
    + lia.
    + rewrite repeat_length. lia.
  - assert (H2 : 2 <= IZR depth) by (apply IZR_le; lia).
    pose proof (ln_pos (IZR depth)) as Hln.
    split; simpl.
    + apply Rdiv_lt_0_compat; lra.
    + unfold Rpower. apply exp_pos.
Qed.

(** C7, the claim as stated fails: the depth [10^400] is an integer
    above 1 and the construction raises, OverflowError, when the depth is
    divided by [2.0]. *)
Lemma huge_depth_is_rejected :
  (1 < 10 ^ 400)%Z /\ __init__ (10 ^ 400) = Raise OverflowError.
Proof.
  split; [reflexivity|]. apply init_overflow.
  unfold Z.le. vm_compute. discriminate.
Qed.

(** C7, amended: [__init__] raises for every depth of at most 1
    (ValueError, the domain error of [math.log], for a depth of at most 0,
    and ZeroDivisionError, from the division by [math.log(1)], for depth 1)
    and for every depth from [2^1024 - 2^970] on (OverflowError, when the
    int is converted for the division by [2.0]); for every integer depth in
    between it returns an engine with that depth, an empty history and an
    all-zero tensor with one slice per lag. *)
Theorem engine_construction (depth : Z) :
  ((depth <= 0)%Z -> __init__ depth = Raise ValueError) /\
  (depth = 1%Z -> __init__ depth = Raise ZeroDivisionError) /\
  ((float_int_bound <= depth)%Z -> __init__ depth = Raise OverflowError) /\
  ((1 < depth < float_int_bound)%Z ->
   exists e, __init__ depth = Ok e /\
     history_depth e = depth /\ history e = [] /\
     length (weights e) = Z.to_nat depth /\ engine_ok e /\
     (forall d i j, cell (weights e) d i j = 0) /\
     scoreScaler e = 1 / ln (IZR depth) /\
     ScoreScalerMiddle e = Rpower (IZR depth / 2) (scoreScaler e)).
Proof.
  split; [apply init_low|]. split; [intros ->; apply init_one|].
  split; [apply init_overflow|].
  intros Hd. exists (fresh_engine depth). split; [now apply init_ok|].
  assert (Hd1 : (1 < depth)%Z) by lia.
  repeat split; try apply (fresh_engine_ok depth Hd1).
  - simpl. apply repeat_length.
  - intros d i j. apply zero_tensor_cell.
Qed.

Lemma engine_construction_witness :
  __init__ 0 = Raise ValueError /\
  __init__ 1 = Raise ZeroDivisionError /\
  __init__ (2 ^ 1024) = Raise OverflowError /\
  exists e, __init__ 2 = Ok e /\ history e = [] /\ length (weights e) = 2%nat.
Proof.
  destruct (engine_construction 0) as (H0 & _).
  destruct (engine_construction 1) as (_ & H1 & _).
  destruct (engine_construction (2 ^ 1024)) as (_ & _ & H3 & _).
  destruct (engine_construction 2) as (_ & _ & _ & H2).
  split; [apply H0; lia|]. split; [apply H1; reflexivity|].
  split; [apply H3; unfold Z.le; vm_compute; discriminate|].
  destruct H2 as (e & He & _ & Hh & Hl & _).
  { split; [lia|]. reflexivity. }
  exists e. auto.
Defined.

(** ** Angles and bins *)

Lemma norm_degrees_id (degrees : R) :
  degrees <> 360 -> norm_degrees degrees = degrees.
Proof.
  intros H. unfold norm_degrees, CircularRange.
  destruct (Req_dec_T degrees 360); [contradiction | reflexivity].
Qed.

Lemma norm_degrees_360 : norm_degrees 360 = 0.
Proof.
  unfold norm_degrees, CircularRange.
  destruct (Req_dec_T 360 360); [reflexivity | contradiction].
Qed.

(** At a bin-aligned angle the code weighs template [t] by 29/30 and its
    neighbour by 1/30. *)
Lemma target_bin_aligned (k : Z) :
  (- 30 <= k < 30)%Z ->
  get_target_state_and_weights (12 * IZR k) = (k, 29 / 30, 1 / 30).
Proof.
  intros Hk.
  assert (Hlo : -30 <= IZR k) by (apply IZR_le; lia).
  assert (Hhi : IZR k <= 29) by (apply IZR_le; lia).
  destruct (target_state_and_weights_spec (12 * IZR k))
    as (t & w1 & w2 & Hg & Ht & Hs & _ & Hw2).
  rewrite norm_degrees_id in * by lra.
  assert (t = k) as ->.
  { rewrite Ht. apply Zfloor_eq. lra. }
  rewrite Hg. f_equal; [f_equal|]; lra.
Qed.

Lemma template_weight_at (t k d : Z) :
  circular_distance t k = d ->
  template_weight t k = 1 - 4 / 30 * IZR d.
Proof. intros <-. reflexivity. Qed.

(** C3: at the bin-aligned angle 24, the example of the docstring (bin 2),
    [get_move] does not reproduce template 2: entry 2 is 224/225 where the
    template has 1, and entry 3 is 196/225 where the template has 13/15. *)
Theorem get_move_24_is_not_template :
  exists v,
    get_move 24 = Ok v /\
    py_index MoveWeights 2 = Ok (template 2) /\
    vec (template 2) 2 = 1 /\ vec (template 2) 3 = 13 / 15 /\
    vec v 2 = 224 / 225 /\ vec v 3 = 196 / 225 /\
    vec v 2 <> vec (template 2) 2.
Proof.
  exists (blend 2 (29 / 30) (1 / 30)).
  assert (Hg : get_target_state_and_weights 24 = (2%Z, 29 / 30, 1 / 30)).
  { replace 24 with (12 * IZR 2) by lra. apply target_bin_aligned. lia. }
  split; [apply (get_move_blend 24 2 _ _ Hg); lia|].
  split; [apply MoveWeights_index; unfold StateCount; lia|].
  assert (T2 : vec (template 2) 2 = 1).
  { unfold vec. rewrite (template_nth 2 2) by lia.
    rewrite (template_weight_at 2 _ 0) by reflexivity. lra. }
  assert (T3 : vec (template 2) 3 = 13 / 15).
  { unfold vec. rewrite (template_nth 2 3) by lia.
    rewrite (template_weight_at 2 _ 1) by reflexivity. lra. }
  assert (V2 : vec (blend 2 (29 / 30) (1 / 30)) 2 = 224 / 225).
  { unfold vec. rewrite (blend_nth 2 _ _ 2) by lia.
    rewrite (template_weight_at 2 (Z.of_nat 2) 0) by reflexivity.
    rewrite (template_weight_at 2 (Z.of_nat 2 - 1) 1) by reflexivity. lra. }
  assert (V3 : vec (blend 2 (29 / 30) (1 / 30)) 3 = 196 / 225).
  { unfold vec. rewrite (blend_nth 2 _ _ 3) by lia.
    rewrite (template_weight_at 2 (Z.of_nat 3) 1) by reflexivity.
    rewrite (template_weight_at 2 (Z.of_nat 3 - 1) 0) by reflexivity. lra. }
  repeat split; auto. rewrite V2, T2. lra.
Qed.

(** ** Which angles are accepted *)

Lemma circular_distance_period (t k : Z) :
  circular_distance (t + 30) k = circular_distance t k.
Proof.
  unfold circular_distance, StateCount.
  replace (k - (t + 30))%Z with (k - t + (- 1) * 30)%Z by lia.
  replace (t + 30 - k)%Z with (t - k + 1 * 30)%Z by lia.
  now rewrite !Z_mod_plus_full.
Qed.

Lemma blend_period (t : Z) (w1 w2 : R) :
  blend (t + 30) w1 w2 = blend t w1 w2.
Proof.
  unfold blend. f_equal. apply map_ext. intros k.
  unfold template_weight. now rewrite !circular_distance_period.
Qed.

Lemma target_state_period (degrees : R) (t : Z) (w1 w2 : R) :
  - 360 <= degrees < 0 ->
  get_target_state_and_weights degrees = (t, w1, w2) ->
  get_target_state_and_weights (degrees + 360) = ((t + 30)%Z, w1, w2).
Proof.
  intros Hd Hg.
  destruct (target_state_and_weights_spec degrees)
    as (t0 & a1 & a2 & Hg0 & Ht0 & Hs0 & _ & Hw0).
  destruct (target_state_and_weights_spec (degrees + 360))
    as (t1 & b1 & b2 & Hg1 & Ht1 & Hs1 & _ & Hw1).
  rewrite norm_degrees_id in * by lra.
  assert (t0 = t /\ a1 = w1 /\ a2 = w2) as (-> & -> & ->)
    by (rewrite Hg in Hg0; now inversion Hg0).
  assert (Ht : t1 = (t + 30)%Z).
  { rewrite Ht1, Ht0, <- Zfloor_addz. f_equal. lra. }
  rewrite Hg1, Ht. rewrite Ht, plus_IZR in Hw1.
  f_equal; [f_equal|]; lra.
Qed.

Lemma get_move_period (degrees : R) :
  - 360 <= degrees < 0 -> get_move (degrees + 360) = get_move degrees.
Proof.
  intros Hd.
  destruct (target_state_and_weights_spec degrees)
    as (t & w1 & w2 & Hg & Ht & _).
  pose proof (target_state_period degrees t w1 w2 Hd Hg) as Hg'.
  rewrite norm_degrees_id in Ht by lra.
  assert (Hr : (- 30 <= t < 0)%Z).
  { rewrite Ht. rewrite <- (norm_degrees_id degrees) by lra.
    apply target_state_range. rewrite norm_degrees_id by lra. lra. }
  rewrite (get_move_blend _ _ _ _ Hg') by lia.
  rewrite (get_move_blend _ _ _ _ Hg) by lia.
  now rewrite blend_period.
Qed.

Lemma get_move_360 : get_move 360 = get_move 0.
Proof.
  unfold get_move, get_target_state_and_weights, CircularRange.
  destruct (Req_dec_T 360 360) as [_|H]; [|contradiction].
  destruct (Req_dec_T 0 360) as [H|_]; [lra | reflexivity].
Qed.

Lemma get_move_accepts (degrees : R) :
  - 360 <= degrees <= 360 ->
  exists t w1 w2,
    get_target_state_and_weights degrees = (t, w1, w2) /\
    (- 30 <= t < 30)%Z /\ get_move degrees = Ok (blend t w1 w2) /\
    w1 + w2 = 1 /\ 0 < w2 <= 1 / 30 /\
    (0 <= degrees -> (0 <= t)%Z).
Proof.
  intros Hd.
  destruct (target_state_and_weights_spec degrees)
    as (t & w1 & w2 & Hg & Ht & Hs & Hw & _).
  assert (Hn : - 360 <= norm_degrees degrees < 360
               /\ (0 <= degrees -> 0 <= norm_degrees degrees)).
  { unfold norm_degrees, CircularRange.
    destruct (Req_dec_T degrees 360); lra. }
  assert (Hr : (- 30 <= t < 30)%Z)
    by (rewrite Ht; apply target_state_range; lra).
  exists t, w1, w2. repeat split; auto; try lia; try apply Hw.
  - apply (get_move_blend _ _ _ _ Hg). lia.
  - intros H0. rewrite Ht.
    apply (target_state_range degrees 0 30). lra.
Qed.

Lemma get_move_rejects (degrees : R) :
  degrees < - 360 \/ 360 < degrees -> get_move degrees = Raise IndexError.
Proof.
  intros Hd.
  destruct (target_state_and_weights_spec degrees)
    as (t & w1 & w2 & Hg & Ht & _).
  rewrite norm_degrees_id in Ht by lra.
  apply (get_move_out _ _ _ _ Hg).
  pose proof (Zfloor_bound (30 * (degrees / 360))) as Hb.
  rewrite <- Ht in Hb.
  destruct Hd as [Hd|Hd].
  - left. apply lt_IZR. lra.
  - right. apply le_IZR. 
    assert (29 < IZR t) by lra.
    apply IZR_le. apply lt_IZR in H. lia.
Qed.

Lemma record_move_raises (degrees : R) (x : exn) (e : Engine) :
  get_move degrees = Raise x ->
  record_move_and_get_predicted degrees e = (Raise x, e).
Proof.
  intros H. unfold record_move_and_get_predicted, mbind, lift.
  now rewrite H.
Qed.

Lemma record_move_congr (d1 d2 : R) (e : Engine) :
  get_move d1 = get_move d2 ->
  record_move_and_get_predicted d1 e = record_move_and_get_predicted d2 e.
Proof.
  intros H. unfold record_move_and_get_predicted, mbind, lift.
  now rewrite H.
Qed.

(** A call on a well-formed engine with an accepted angle returns, and
    leaves the engine well-formed. *)
Lemma record_move_ok (degrees : R) (e0 : Engine) :
  - 360 <= degrees <= 360 -> engine_ok e0 ->
  exists vector pred e,
    get_move degrees = Ok vector /\ vec_ok vector /\
    record_move_and_get_predicted degrees e0 = (Ok pred, e) /\
    vec_ok pred /\ engine_ok e /\
    history e = push_history (history_depth e0) vector (history e0) /\
    history_depth e = history_depth e0 /\
    scoreScaler e = scoreScaler e0 /\
    ScoreScalerMiddle e = ScoreScalerMiddle e0 /\
    (forall i, (i < 30)%nat ->
       vec pred i = predicted_sum (history e0) (weights e0) i) /\
    (forall d i j,
       (d < length (history e0))%nat -> (i < 30)%nat -> (j < 30)%nat ->
       cell (weights e) d i j
       = cell (weights e0) d i j
         + vec vector i * vec (nth d (history e0) (mkMove [])) j) /\
    (forall d i j,
       ~ ((d < length (history e0))%nat /\ (i < 30)%nat /\ (j < 30)%nat) ->
       cell (weights e) d i j = cell (weights e0) d i j).
Proof.
  intros Hd Hok.
  destruct (get_move_accepts degrees Hd)
    as (t & w1 & w2 & Hg & Ht & Hmv & _).
  destruct (record_move_spec degrees t w1 w2 e0 Hg Ht Hok)
    as (pred & w' & Hrun & Hp & Hw' & Hl & A & B1 & B2).
  exists (blend t w1 w2), pred. eexists.
  split; [exact Hmv|]. split; [apply blend_length|].
  split; [exact Hrun|]. split; [exact Hp|].
  destruct Hok as (Hh & Hw0 & Hlen & Hdepth).
  split.
  { unfold engine_ok. simpl.
    destruct (push_history_length (history_depth e0) (blend t w1 w2)
                (history e0)) as [Hle _]; [lia|].
    repeat split; auto.
    - apply push_history_ok; auto. apply blend_length.
    - lia.
    - congruence. }
  simpl. repeat split; auto.
Qed.

(** C6, the claim as stated fails: the angle -12 lies outside [0,360] and
    is accepted on a freshly constructed engine. *)
Lemma negative_angle_is_accepted :
  - 12 < 0 /\
  exists e0 pred e,
    __init__ 2 = Ok e0 /\
    record_move_and_get_predicted (- 12) e0 = (Ok pred, e).
Proof.
  split; [lra|]. exists (fresh_engine 2).
  destruct (record_move_ok (- 12) (fresh_engine 2))
    as (v & pred & e & _ & _ & Hrun & _); [lra | apply fresh_engine_ok; lia |].
  exists pred, e.
  split; [apply init_ok; pose proof float_int_bound_large; lia|].
  exact Hrun.
Qed.

(** C6, amended: [record_move_and_get_predicted] raises IndexError, before
    touching the engine, for every angle below -360 or above 360; an angle
    in [-360, 0) is accepted and handled exactly as that angle plus 360;
    the angle 360 is handled exactly as 0; every angle in [-360, 360]
    is accepted by a well-formed engine. *)
Theorem record_move_angle_domain (degrees : R) (e : Engine) :
  (degrees < - 360 \/ 360 < degrees ->
   record_move_and_get_predicted degrees e = (Raise IndexError, e)) /\
  (- 360 <= degrees < 0 ->
   record_move_and_get_predicted degrees e
   = record_move_and_get_predicted (degrees + 360) e) /\
  (degrees = 360 ->
   record_move_and_get_predicted degrees e
   = record_move_and_get_predicted 0 e) /\
  (- 360 <= degrees <= 360 -> engine_ok e ->
   exists pred e', record_move_and_get_predicted degrees e = (Ok pred, e')).
Proof.
  split; [|split; [|split]].
  - intros Hd. apply record_move_raises. now apply get_move_rejects.
  - intros Hd. apply record_move_congr. symmetry. now apply get_move_period.
  - intros ->. apply record_move_congr. apply get_move_360.
  - intros Hd Hok.
    destruct (record_move_ok degrees e Hd Hok)
      as (v & pred & e' & _ & _ & Hrun & _).
    now exists pred, e'.
Qed.

Lemma record_move_angle_domain_witness :
  record_move_and_get_predicted 372 (fresh_engine 2)
  = (Raise IndexError, fresh_engine 2) /\
  record_move_and_get_predicted (- 12) (fresh_engine 2)
  = record_move_and_get_predicted (- 12 + 360) (fresh_engine 2) /\
  record_move_and_get_predicted 360 (fresh_engine 2)
  = record_move_and_get_predicted 0 (fresh_engine 2) /\
  exists pred e',
    record_move_and_get_predicted 90 (fresh_engine 2) = (Ok pred, e').
Proof.
  assert (H2 : (1 < 2)%Z) by lia.
  split; [|split; [|split]].
  - apply (proj1 (record_move_angle_domain 372 (fresh_engine 2))). lra.
  - apply (proj1 (proj2 (record_move_angle_domain (- 12) (fresh_engine 2)))).
    lra.
  - apply (proj1 (proj2 (proj2
             (record_move_angle_domain 360 (fresh_engine 2))))).
    reflexivity.
  - apply (proj2 (proj2 (proj2
             (record_move_angle_domain 90 (fresh_engine 2))))).
    + lra.
    + apply (proj1 (fresh_engine_ok 2 H2)).
Defined.

(** ** Scoring *)

(** C10: [get_scoring_weight] leaves the engine as it found it, whether
    it returns or raises: history, weights, history_depth, scoreScaler and
    ScoreScalerMiddle are unchanged, and the call repeated with the same
    arguments gives the same result. *)
Theorem get_scoring_weight_frame (degrees : R) (predicted : Move)
    (e : Engine) :
  let e' := snd (get_scoring_weight degrees predicted e) in
  e' = e /\
  history e' = history e /\ weights e' = weights e /\
  history_depth e' = history_depth e /\ scoreScaler e' = scoreScaler e /\
  ScoreScalerMiddle e' = ScoreScalerMiddle e /\
  get_scoring_weight degrees predicted e'
  = get_scoring_weight degrees predicted e.
Proof.
  cbv zeta.
  assert (H : snd (get_scoring_weight degrees predicted e) = e).
  { unfold get_scoring_weight.
    destruct (get_target_state_and_weights degrees) as [[t w1] w2].
    cbv zeta. destruct (Rlt_dec _ _); [|reflexivity].
    unfold mbind, lift, gets, mret.
    repeat match goal with
    | |- context [match ?c with Ok _ => _ | Raise _ => _ end] =>
        destruct c; try reflexivity
    | |- context [let (_, _) := (?c, _) in _] => cbv iota beta
    end. }
  rewrite H. repeat split.
Qed.

Lemma SumMoveWeights_eq : SumMoveWeights = 226 / 15.
Proof.
  eval_model. unfold BaseDiffPerState, StateCount.
  repeat match goal with
  | |- context [Rabs ?x] =>
      first [ rewrite (Rabs_pos_eq x) by lra | rewrite (Rabs_left x) by lra ]
  end.
  lra.
Qed.

Lemma fold_left_Rmax_ge (l : list R) (x : R) :
  x <= fold_left Rmax l x /\ forall y, In y l -> y <= fold_left Rmax l x.
Proof.
  revert x. induction l as [|a l IH]; intros x; simpl.
  - split; [lra | contradiction].
  - destruct (IH (Rmax x a)) as [H1 H2].
    pose proof (Rmax_l x a). pose proof (Rmax_r x a).
    split; [lra|]. intros y [<-|Hy]; [lra | now apply H2].
Qed.

Lemma fold_left_Rmin_le (l : list R) (x : R) :
  fold_left Rmin l x <= x /\ forall y, In y l -> fold_left Rmin l x <= y.
Proof.
  revert x. induction l as [|a l IH]; intros x; simpl.
  - split; [lra | contradiction].
  - destruct (IH (Rmin x a)) as [H1 H2].
    pose proof (Rmin_l x a). pose proof (Rmin_r x a).
    split; [lra|]. intros y [<-|Hy]; [lra | now apply H2].
Qed.

Lemma py_max_min_spec (p : Move) :
  vec_ok p ->
  exists hi lo,
    py_max (states p) = Ok hi /\ py_min (states p) = Ok lo /\
    forall k, (k < 30)%nat -> lo <= vec p k <= hi.
Proof.
  unfold vec_ok, vec. destruct (states p) as [|x l] eqn:Hs; [discriminate|].
  intros Hl. do 2 eexists. split; [reflexivity|]. split; [reflexivity|].
  intros k Hk.
  assert (Hin : In (nth k (x :: l) 0) (x :: l)) by (apply nth_In; lia).
  destruct (fold_left_Rmax_ge l x) as [M1 M2].
  destruct (fold_left_Rmin_le l x) as [N1 N2].
  destruct Hin as [Heq|Hin].
  - rewrite <- Heq. lra.
  - split; [now apply N2 | now apply M2].
Qed.

Lemma py_index_vec (p : Move) (k : Z) :
  vec_ok p -> (0 <= k < 30)%Z ->
  py_index (states p) k = Ok (vec p (Z.to_nat k)).
Proof.
  intros Hp Hk. unfold vec_ok in Hp.
  rewrite <- (Z2Nat.id k) at 1 by lia.
  apply py_index_nat. lia.
Qed.

Lemma math_pow_count (n : nat) (s : R) :
  0 < s -> exists sc, math_pow (INR n) s = Ok sc /\ 0 <= sc.
Proof.
  intros Hs. unfold math_pow.
  destruct (Rlt_dec 0 (INR n)).
  - eexists. split; [reflexivity|]. unfold Rpower. left. apply exp_pos.
  - pose proof (pos_INR n).
    destruct (Req_dec_T (INR n) 0); [|lra].
    destruct (Rlt_dec s 0); [lra|].
    destruct (Req_dec_T s 0); [lra|].
    eexists. split; [reflexivity | lra].
Qed.

(** The raw score of two neighbouring entries never exceeds the range
    normalizer taken from the extreme entries. *)
Lemma raw_score_bounded (a b lo hi w1 w2 S : R) :
  lo <= a <= hi -> lo <= b <= hi -> w1 + w2 = 1 -> 0 < w2 <= 1 / 30 ->
  0 < S ->
  Rabs ((a * w1 + b * w2) / S * SumMoveWeights)
  <= Rmax hi (Rabs lo) / S * SumMoveWeights.
Proof.
  intros Ha Hb Hw Hw2 HS.
  set (mx := Rmax hi (Rabs lo)).
  assert (Hmx : hi <= mx /\ - lo <= mx).
  { unfold mx. pose proof (Rmax_l hi (Rabs lo)).
    pose proof (Rmax_r hi (Rabs lo)).
    pose proof (Rle_abs (- lo)). rewrite Rabs_Ropp in *. lra. }
  assert (Hnum : Rabs (a * w1 + b * w2) <= mx).
  { apply Rabs_le. split; nra. }
  assert (HS' : 0 < / S) by now apply Rinv_0_lt_compat.
  assert (HW : 0 <= SumMoveWeights) by (rewrite SumMoveWeights_eq; lra).
  unfold Rdiv. rewrite !Rabs_mult.
  rewrite (Rabs_pos_eq (/ S)) by lra.
  rewrite (Rabs_pos_eq SumMoveWeights) by lra.
  apply Rmult_le_compat_r; [lra|].
  apply Rmult_le_compat_r; lra.
Qed.

(** The path of [get_scoring_weight] for a prediction with some weight:
    no index, division or power raises. *)
Lemma get_scoring_weight_run (degrees : R) (predicted : Move) (e : Engine) :
  0 <= degrees <= 360 -> vec_ok predicted -> scaler_ok e ->
  0 < py_sum (map Rabs (states predicted)) ->
  exists t w1 w2 max_state min_state scaler,
    get_target_state_and_weights degrees = (t, w1, w2) /\
    py_max (states predicted) = Ok max_state /\
    py_min (states predicted) = Ok min_state /\
    math_pow (INR (length (history e))) (scoreScaler e) = Ok scaler /\
    0 <= scaler /\ w1 + w2 = 1 /\ 0 < w2 <= 1 / 30 /\
    (forall k, (k < 30)%nat -> min_state <= vec predicted k <= max_state) /\
    (Z.to_nat t < 30)%nat /\
    (Z.to_nat (get_index_at_offset t 1) < 30)%nat /\
    let sum_states := py_sum (map Rabs (states predicted)) in
    let raw :=
      (vec predicted (Z.to_nat t) * w1
       + vec predicted (Z.to_nat (get_index_at_offset t 1)) * w2)
      / sum_states * SumMoveWeights in
    let range_norm :=
      Rmax max_state (Rabs min_state) / sum_states * SumMoveWeights in
    get_scoring_weight degrees predicted e
    = (Ok (- (raw * (scaler / ScoreScalerMiddle e)),
           (range_norm - raw) * scaler,
           (range_norm + raw) * scaler), e).
Proof.
  intros Hd Hp (Hs & Hm) Hsum.
  destruct (get_move_accepts degrees)
    as (t & w1 & w2 & Hg & Ht & _ & Hw & Hw2 & Ht0); [lra|].
  specialize (Ht0 (proj1 Hd)).
  destruct (py_max_min_spec predicted Hp) as (hi & lo & Hmax & Hmin & Hb).
  destruct (math_pow_count (length (history e)) (scoreScaler e) Hs)
    as (sc & Hpow & Hsc).
  pose proof (get_index_at_offset_range t 1) as Hi1. unfold StateCount in Hi1.
  exists t, w1, w2, hi, lo, sc.
  split; [exact Hg|]. split; [exact Hmax|]. split; [exact Hmin|].
  split; [exact Hpow|]. split; [exact Hsc|]. split; [exact Hw|].
  split; [exact Hw2|]. split; [exact Hb|]. split; [lia|]. split; [lia|].
  cbv zeta. set (S := py_sum (map Rabs (states predicted))) in *.
  unfold get_scoring_weight. rewrite Hg. cbv zeta. fold S.
  destruct (Rlt_dec 0 S); [|contradiction].
  unfold mbind, lift, gets, mret.
  rewrite (py_index_vec predicted t) by (auto; lia).
  rewrite (py_index_vec predicted (get_index_at_offset t 1)) by (auto; lia).
  unfold py_div.
  destruct (Req_dec_T S 0); [lra|].
  rewrite Hmax, Hmin.
  destruct (Req_dec_T S 0); [lra|].
  rewrite Hpow.
  destruct (Req_dec_T (ScoreScalerMiddle e) 0); [lra|].
  reflexivity.
Qed.

(** C4, amended: in exact real arithmetic, for every angle in [0,360] and
    every predicted vector whose absolute values sum to more than 0,
    [get_scoring_weight] returns [pos = (range_norm - raw) * scaler] and
    [neg = (range_norm + raw) * scaler] with [|raw| <= range_norm], and
    both are non-negative; in binary64 the bound holds up to rounding
    only. *)
Theorem scoring_contributions_nonneg (degrees : R) (predicted : Move)
    (e : Engine) :
  0 <= degrees <= 360 -> vec_ok predicted -> scaler_ok e ->
  0 < py_sum (map Rabs (states predicted)) ->
  exists t w1 w2 max_state min_state scaler,
    get_target_state_and_weights degrees = (t, w1, w2) /\
    py_max (states predicted) = Ok max_state /\
    py_min (states predicted) = Ok min_state /\
    math_pow (INR (length (history e))) (scoreScaler e) = Ok scaler /\
    let sum_states := py_sum (map Rabs (states predicted)) in
    let raw :=
      (vec predicted (Z.to_nat t) * w1
       + vec predicted (Z.to_nat (get_index_at_offset t 1)) * w2)
      / sum_states * SumMoveWeights in
    let range_norm :=
      Rmax max_state (Rabs min_state) / sum_states * SumMoveWeights in
    get_scoring_weight degrees predicted e
    = (Ok (- (raw * (scaler / ScoreScalerMiddle e)),
           (range_norm - raw) * scaler,
           (range_norm + raw) * scaler), e) /\
    Rabs raw <= range_norm /\
    0 <= (range_norm - raw) * scaler /\
    0 <= (range_norm + raw) * scaler.
Proof.
  intros Hd Hp Hs Hsum.
  destruct (get_scoring_weight_run degrees predicted e Hd Hp Hs Hsum)
    as (t & w1 & w2 & hi & lo & sc & Hg & Hmax & Hmin & Hpow & Hsc & Hw
        & Hw2 & Hb & Ht & Ht1 & Hrun).
  exists t, w1, w2, hi, lo, sc.
  split; [exact Hg|]. split; [exact Hmax|]. split; [exact Hmin|].
  split; [exact Hpow|]. cbv zeta in *. split; [exact Hrun|].
  set (S := py_sum (map Rabs (states predicted))) in *.
  set (a := vec predicted (Z.to_nat t)).
  set (b := vec predicted (Z.to_nat (get_index_at_offset t 1))).
  pose proof (raw_score_bounded a b lo hi w1 w2 S (Hb _ Ht) (Hb _ Ht1)
                Hw Hw2 Hsum) as Hraw.
  pose proof (Rle_abs ((a * w1 + b * w2) / S * SumMoveWeights)) as H1.
  pose proof (Rle_abs (- ((a * w1 + b * w2) / S * SumMoveWeights))) as H2.
  rewrite Rabs_Ropp in H2.
  split; [exact Hraw|]. split; apply Rmult_le_pos; lra.
Qed.

(** ** The first moves of a round *)

Lemma sumf_zero (f : nat -> R) (n : nat) :
  (forall k, (k < n)%nat -> f k = 0) -> sumf f n = 0.
Proof.
  induction n as [|n IH]; intros H; [reflexivity|].
  rewrite sumf_S, IH, H by auto. lra.
Qed.

Lemma predicted_sum_zero (h : list Move) (w : list (list Move)) (i : nat) :
  (forall d j, (d < length h)%nat -> cell w d i j = 0) ->
  predicted_sum h w i = 0.
Proof.
  intros H. unfold predicted_sum. apply sumf_zero. intros d Hd.
  apply sumf_zero. intros j _. rewrite H by assumption. lra.
Qed.

Lemma zero_vector (p : Move) :
  vec_ok p -> (forall i, (i < 30)%nat -> vec p i = 0) ->
  p = Move_new StateCount.
Proof.
  intros Hp H. apply Move_ext; [exact Hp | reflexivity|].
  intros i Hi. now rewrite H, vec_Move_new.
Qed.

Lemma sum_abs_zero_vector :
  py_sum (map Rabs (states (Move_new StateCount))) = 0.
Proof.
  unfold py_sum. simpl. rewrite Rabs_R0. lra.
Qed.

(** A prediction without any weight scores as [(0, 0, 0)]. *)
Lemma get_scoring_weight_zero (degrees : R) (e : Engine) :
  get_scoring_weight degrees (Move_new StateCount) e = (Ok (- 0, 0, 0), e).
Proof.
  unfold get_scoring_weight.
  destruct (get_target_state_and_weights degrees) as [[t w1] w2].
  cbv zeta. rewrite sum_abs_zero_vector.
  destruct (Rlt_dec 0 0); [lra | reflexivity].
Qed.

(** A call on an engine whose tensor is still all zero predicts the zero
    vector. *)
Lemma zero_tensor_predicts_zero (degrees : R) (e0 : Engine) :
  - 360 <= degrees <= 360 -> engine_ok e0 ->
  (forall d i j, (d < length (history e0))%nat ->
     cell (weights e0) d i j = 0) ->
  exists vector e,
    get_move degrees = Ok vector /\ vec_ok vector /\
    record_move_and_get_predicted degrees e0 = (Ok (Move_new StateCount), e) /\
    engine_ok e /\
    history e = push_history (history_depth e0) vector (history e0) /\
    history_depth e = history_depth e0 /\
    scoreScaler e = scoreScaler e0 /\
    ScoreScalerMiddle e = ScoreScalerMiddle e0 /\
    (forall d i j,
       (d < length (history e0))%nat -> (i < 30)%nat -> (j < 30)%nat ->
       cell (weights e) d i j
       = vec vector i * vec (nth d (history e0) (mkMove [])) j) /\
    (forall d i j,
       ~ ((d < length (history e0))%nat /\ (i < 30)%nat /\ (j < 30)%nat) ->
       cell (weights e) d i j = cell (weights e0) d i j).
Proof.
  intros Hd Hok Hz.
  destruct (record_move_ok degrees e0 Hd Hok)
    as (v & pred & e & Hmv & Hv & Hrun & Hp & Hok' & Hh & Hdp & Hs & Hm
        & A & B1 & B2).
  assert (pred = Move_new StateCount) as ->.
  { apply zero_vector; [exact Hp|]. intros i Hi. rewrite A by assumption.
    apply predicted_sum_zero. intros d j Hdl. now apply Hz. }
  exists v, e. repeat split; auto; try apply Hok'.
  intros d i j Hdl Hi Hj. rewrite B1, Hz by assumption. lra.
Qed.

(** The first two calls of a round, on the engine [__init__] returns. *)
Lemma two_moves_spec (depth : Z) (a b : R) :
  (1 < depth)%Z -> - 360 <= a <= 360 -> - 360 <= b <= 360 ->
  exists va vb e1 e2,
    get_move a = Ok va /\ get_move b = Ok vb /\
    vec_ok va /\ vec_ok vb /\
    record_move_and_get_predicted a (fresh_engine depth)
    = (Ok (Move_new StateCount), e1) /\
    record_move_and_get_predicted b e1 = (Ok (Move_new StateCount), e2) /\
    history e1 = [va] /\ history e2 = [vb; va] /\
    engine_ok e2 /\ history_depth e2 = depth /\
    scoreScaler e2 = scoreScaler (fresh_engine depth) /\
    ScoreScalerMiddle e2 = ScoreScalerMiddle (fresh_engine depth) /\
    (forall i j, (i < 30)%nat -> (j < 30)%nat ->
       cell (weights e2) 0 i j = vec vb i * vec va j) /\
    (forall d i j, (0 < d)%nat -> cell (weights e2) d i j = 0).
Proof.
  intros Hdepth Ha Hb.
  destruct (fresh_engine_ok depth Hdepth) as [Hok0 _].
  destruct (zero_tensor_predicts_zero a (fresh_engine depth) Ha Hok0)
    as (va & e1 & Hma & Hva & Hr1 & Hok1 & Hh1 & Hd1 & Hs1 & Hm1 & _ & U1).
  { intros d i j _. apply zero_tensor_cell. }
  assert (Hh1' : history e1 = [va]).
  { rewrite Hh1. unfold push_history. simpl.
    destruct (Z.ltb_spec depth 1); [lia | reflexivity]. }
  assert (Hz1 : forall d i j, cell (weights e1) d i j = 0).
  { intros d i j. rewrite U1 by (simpl; lia). apply zero_tensor_cell. }
  destruct (zero_tensor_predicts_zero b e1 Hb Hok1)
    as (vb & e2 & Hmb & Hvb & Hr2 & Hok2 & Hh2 & Hd2 & Hs2 & Hm2 & B1 & B2).
  { intros d i j _. apply Hz1. }
  exists va, vb, e1, e2. rewrite Hh1' in *.
  change (length [va]) with 1%nat in *.
  change (history_depth (fresh_engine depth)) with depth in *.
  split; [exact Hma|]. split; [exact Hmb|].
  split; [exact Hva|]. split; [exact Hvb|].
  split; [exact Hr1|]. split; [exact Hr2|].
  split; [reflexivity|].
  split.
  { rewrite Hh2, Hd1. unfold push_history.
    change (Z.of_nat (length [vb; va])) with 2%Z.
    destruct (Z.ltb_spec depth 2); [lia | reflexivity]. }
  split; [exact Hok2|].
  split; [congruence|]. split; [congruence|]. split; [congruence|].
  split.
  - intros i j Hi Hj. rewrite B1 by lia. reflexivity.
  - intros d i j Hd0. rewrite B2 by lia. apply Hz1.
Qed.


(** ** The final score *)

Lemma final_score_zero (pos_sum neg_sum : R) :
  pos_sum = 0 -> neg_sum = 0 ->
  final_score pos_sum neg_sum = Raise ZeroDivisionError.
Proof.
  intros -> ->. unfold final_score, py_div.
  destruct (Rlt_dec 0 0); [lra|].
  destruct (Req_dec_T 0 0); [reflexivity | contradiction].
Qed.

(** X13: every round of two moves with angles in [-360, 360] ends in the
    division [0 / 0]: both moves contribute nothing and
    [test_score_move_series] raises ZeroDivisionError. *)
Lemma two_move_round_divides_by_zero (a b : R) :
  - 360 <= a <= 360 -> - 360 <= b <= 360 ->
  test_score_move_series [a; b] = Raise ZeroDivisionError.
Proof.
  intros Ha Hb. unfold test_score_move_series.
  change (Z.of_nat (length [a; b])) with 2%Z.
  rewrite init_ok by (pose proof float_int_bound_large; lia). cbn [rbind].
  destruct (two_moves_spec 2 a b) as (va & vb & e1 & e2 & _ & _ & _ & _
                                      & H1 & H2 & _); try lra; try lia.
  cbn [mfoldM]. unfold mbind, score_move at 1. unfold mbind.
  rewrite H1, get_scoring_weight_zero. unfold mret at 1.
  unfold score_move at 1. unfold mbind.
  rewrite H2, get_scoring_weight_zero. unfold mret. cbn [fst snd rbind].
  apply final_score_zero; lra.
Qed.

(** C1: on the two-move round [0, 90] [test_score_move_series] returns no
    score: both contributions of both moves are 0, and the final formula
    divides 0 by 0, raising ZeroDivisionError. *)
Theorem test_score_move_series_0_90 :
  test_score_move_series [0; 90] = Raise ZeroDivisionError.
Proof.
  unfold test_score_move_series.
  change (Z.of_nat (length [0; 90])) with 2%Z.
  rewrite init_ok by (pose proof float_int_bound_large; lia). cbn [rbind].
  destruct (two_moves_spec 2 0 90)
    as (va & vb & e1 & e2 & _ & _ & _ & _ & H1 & H2 & _); try lra; try lia.
  cbn [mfoldM]. unfold mbind, score_move at 1. unfold mbind.
  rewrite H1, get_scoring_weight_zero. unfold mret at 1.
  unfold score_move at 1. unfold mbind.
  rewrite H2, get_scoring_weight_zero. unfold mret. cbn [fst snd rbind].
  unfold final_score, py_div.
  destruct (Rlt_dec (0 + 0 + 0) (0 + 0 + 0)); [lra|].
  destruct (Req_dec_T (0 + 0 + 0) 0); [reflexivity | lra].
Qed.

(** ** The templates *)

Lemma circular_distance_bounds (t k : Z) :
  (0 <= circular_distance t k <= 15)%Z.
Proof.
  unfold circular_distance, StateCount.
  Z.div_mod_to_equations. lia.
Qed.

Lemma circular_distance_self (t : Z) : circular_distance t t = 0%Z.
Proof.
  unfold circular_distance. rewrite Z.sub_diag. reflexivity.
Qed.

Lemma template_weight_bounds (t k : Z) : - 1 <= template_weight t k <= 1.
Proof.
  unfold template_weight, BaseDiffPerState, StateCount.
  destruct (circular_distance_bounds t k) as [Hlo Hhi].
  apply IZR_le in Hlo, Hhi. lra.
Qed.

(** C5: every template [t] built by [initialize] is symmetric about its
    own index (offsets [+j] and [-j] carry the same weight), has weight
    [1 - (4/StateCount) * circular_distance(t,k)] at bin [k], which is 1 at
    [k = t] and -1 at the antipodal bin and lies within [-1, 1] everywhere,
    and its entries sum to 0. *)
Theorem templates_symmetric_zero_sum (t : Z) :
  (0 <= t < StateCount)%Z ->
  exists m,
    py_index MoveWeights t = Ok m /\
    length (states m) = Z.to_nat StateCount /\
    (forall j,
       py_index (states m) (get_index_at_offset t j)
       = py_index (states m) (get_index_at_offset t (- j))) /\
    (forall k, (0 <= k < StateCount)%Z ->
       py_index (states m) k
       = Ok (1 - 4 / IZR StateCount * IZR (circular_distance t k))) /\
    py_index (states m) t = Ok 1 /\
    py_index (states m) (get_index_at_offset t (StateCount / 2)) = Ok (- 1) /\
    (forall k x, py_index (states m) k = Ok x -> - 1 <= x <= 1) /\
    py_sum (states m) = 0.
Proof.
  intros Ht. exists (template t).
  split; [now apply MoveWeights_index|].
  split; [reflexivity|].
  split; [|split; [|split; [|split; [|split]]]].
  - intros j.
    rewrite !template_index by apply get_index_at_offset_range.
    unfold template_weight. now rewrite circular_distance_sym_offset.
  - intros k Hk. now apply template_index.
  - rewrite template_index by assumption.
    unfold template_weight. rewrite circular_distance_self. f_equal. lra.
  - rewrite template_index by apply get_index_at_offset_range.
    unfold template_weight. rewrite circular_distance_offset.
    change (Z.min _ _) with 15%Z.
    unfold BaseDiffPerState, StateCount. f_equal. lra.
  - intros k x Hx.
    assert (Hin : In x (states (template t))).
    { unfold py_index in Hx.
      destruct (py_norm_index _ k) as [n|]; cbn [rbind] in Hx;
        [|discriminate].
      destruct (nth_error (states (template t)) n) eqn:Hn; [|discriminate].
      inversion Hx; subst. eapply nth_error_In; eauto. }
    unfold template in Hin. cbn [states] in Hin.
    apply in_map_iff in Hin. destruct Hin as (k' & <- & _).
    apply template_weight_bounds.
  - now apply template_sum_zero.
Qed.

Lemma templates_symmetric_zero_sum_witness :
  exists m,
    py_index MoveWeights 3 = Ok m /\
    py_index (states m) 4 = py_index (states m) 2 /\
    py_index (states m) 3 = Ok 1 /\
    py_index (states m) 18 = Ok (- 1) /\
    py_sum (states m) = 0.
Proof.
  assert (Ht : (0 <= 3 < StateCount)%Z) by (unfold StateCount; lia).
  destruct (templates_symmetric_zero_sum 3 Ht)
    as (m & Hm & _ & Hsym & _ & Hone & Hanti & _ & Hsum).
  exists m. split; [exact Hm|]. split; [exact (Hsym 1%Z)|].
  split; [exact Hone|]. split; [exact Hanti | exact Hsum].
Defined.

(** ** The tensor across calls *)

Lemma get_move_bin_aligned (k : Z) :
  (- 30 <= k < 30)%Z ->
  get_move (12 * IZR k) = Ok (blend k (29 / 30) (1 / 30)).
Proof.
  intros Hk. apply get_move_blend; [now apply target_bin_aligned | exact Hk].
Qed.

Lemma blend_0_at_0 : vec (blend 0 (29 / 30) (1 / 30)) 0 = 224 / 225.
Proof.
  unfold vec. rewrite (blend_nth 0 _ _ 0) by lia.
  rewrite (template_weight_at 0 (Z.of_nat 0) 0) by reflexivity.
  rewrite (template_weight_at 0 (Z.of_nat 0 - 1) 1) by reflexivity. lra.
Qed.

Lemma blend_15_at_0 : vec (blend 15 (29 / 30) (1 / 30)) 0 = - (224 / 225).
Proof.
  unfold vec. rewrite (blend_nth 15 _ _ 0) by lia.
  rewrite (template_weight_at 15 (Z.of_nat 0) 15) by reflexivity.
  rewrite (template_weight_at 15 (Z.of_nat 0 - 1) 14) by reflexivity. lra.
Qed.

(** C9, the claim as stated fails: in the round [0, 0, 180] the cell
    [0][0][0] holds (224/225)^2 after the second call and 0 after the
    third. *)
Lemma tensor_cell_magnitude_shrinks :
  exists e0 p1 e1 p2 e2 p3 e3,
    __init__ 3 = Ok e0 /\
    record_move_and_get_predicted 0 e0 = (Ok p1, e1) /\
    record_move_and_get_predicted 0 e1 = (Ok p2, e2) /\
    record_move_and_get_predicted 180 e2 = (Ok p3, e3) /\
    Rabs (cell (weights e3) 0 0 0) < Rabs (cell (weights e2) 0 0 0).
Proof.
  destruct (two_moves_spec 3 0 0)
    as (va & vb & e1 & e2 & Hma & Hmb & _ & _ & H1 & H2 & _ & Hh2 & Hok2
        & _ & _ & _ & C0 & _); try lra; try lia.
  assert (G0 : get_move 0 = Ok (blend 0 (29 / 30) (1 / 30))).
  { replace 0 with (12 * IZR 0) by lra. apply get_move_bin_aligned. lia. }
  assert (G180 : get_move 180 = Ok (blend 15 (29 / 30) (1 / 30))).
  { replace 180 with (12 * IZR 15) by lra. apply get_move_bin_aligned. lia. }
  assert (va = blend 0 (29 / 30) (1 / 30)) as -> by congruence.
  assert (vb = blend 0 (29 / 30) (1 / 30)) as -> by congruence.
  destruct (record_move_ok 180 e2) as (v & p3 & e3 & Hmv & _ & H3 & _ & _ & _
                                       & _ & _ & _ & _ & B1 & _);
    [lra | exact Hok2 |].
  assert (v = blend 15 (29 / 30) (1 / 30)) as -> by congruence.
  exists (fresh_engine 3), (Move_new StateCount), e1, (Move_new StateCount),
         e2, p3, e3.
  split; [apply init_ok; pose proof float_int_bound_large; lia|].
  split; [exact H1|]. split; [exact H2|].
  split; [exact H3|].
  rewrite (B1 0%nat 0%nat 0%nat) by (rewrite ?Hh2; simpl; lia).
  rewrite Hh2. cbn [nth].
  rewrite (C0 0%nat 0%nat) by lia.
  rewrite blend_0_at_0, blend_15_at_0.
  replace (224 / 225 * (224 / 225) + - (224 / 225) * (224 / 225)) with 0
    by lra.
  rewrite Rabs_R0. rewrite Rabs_pos_eq by lra. lra.
Qed.

(** C9, amended: within a round the tensor is never reset; a call adds
    [vector[i] * history[d][j]] to the cell [d][i][j] of every lag [d] below
    [len(history)] and leaves the cells of the other lags as they are (the
    magnitude of a cell may go down). *)
Theorem tensor_update_is_additive (degrees : R) (vector : Move)
    (e0 : Engine) :
  get_move degrees = Ok vector -> engine_ok e0 ->
  exists pred e,
    record_move_and_get_predicted degrees e0 = (Ok pred, e) /\
    length (weights e) = length (weights e0) /\
    (forall d i j,
       (d < length (history e0))%nat -> (i < 30)%nat -> (j < 30)%nat ->
       cell (weights e) d i j - cell (weights e0) d i j
       = vec vector i * vec (nth d (history e0) (mkMove [])) j) /\
    (forall d i j, (length (history e0) <= d)%nat ->
       cell (weights e) d i j = cell (weights e0) d i j).
Proof.
  intros Hmv Hok.
  destruct (get_move_cases degrees) as (t & w1 & w2 & Hg & [[Ht Hb]|[_ Hr]]);
    [|congruence].
  assert (vector = blend t w1 w2) as -> by congruence.
  destruct (record_move_spec degrees t w1 w2 e0 Hg Ht Hok)
    as (pred & w' & Hrun & Hp & Hw' & Hl & A & B1 & B2).
  do 2 eexists. split; [exact Hrun|]. cbn [weights].
  split; [exact Hl|]. split.
  - intros d i j Hd Hi Hj. rewrite B1 by assumption. lra.
  - intros d i j Hd. apply B2. lia.
Qed.

(** ** The range of the final score *)

(** Either way [get_scoring_weight] returns non-negative contributions and
    leaves the engine alone. *)
Lemma get_scoring_weight_nonneg (degrees : R) (predicted : Move)
    (e : Engine) :
  0 <= degrees <= 360 -> vec_ok predicted -> scaler_ok e ->
  exists feedback pos neg,
    get_scoring_weight degrees predicted e = (Ok (feedback, pos, neg), e) /\
    0 <= pos /\ 0 <= neg.
Proof.
  intros Hd Hp Hs.
  destruct (Rlt_dec 0 (py_sum (map Rabs (states predicted)))) as [Hsum|Hsum].
  - destruct (get_scoring_weight_run degrees predicted e Hd Hp Hs Hsum)
      as (t & w1 & w2 & hi & lo & sc & _ & _ & _ & _ & Hsc & Hw & Hw2 & Hb
          & Ht & Ht1 & Hrun).
    cbv zeta in Hrun.
    pose proof (raw_score_bounded _ _ lo hi w1 w2 _ (Hb _ Ht) (Hb _ Ht1)
                  Hw Hw2 Hsum) as Hraw.
    match type of Hraw with Rabs ?r <= _ =>
      pose proof (Rle_abs r) as H1; pose proof (Rle_abs (- r)) as H2
    end.
    rewrite Rabs_Ropp in H2.
    do 3 eexists. split; [exact Hrun|]. split; apply Rmult_le_pos; lra.
  - exists (- 0), 0, 0. split; [|lra].
    unfold get_scoring_weight.
    destruct (get_target_state_and_weights degrees) as [[t w1] w2].
    cbv zeta.
    destruct (Rlt_dec 0 (py_sum (map Rabs (states predicted))));
      [contradiction | reflexivity].
Qed.

Lemma score_move_spec (sums : R * R) (degree : R) (e0 : Engine) :
  0 <= degree <= 360 -> engine_ok e0 -> scaler_ok e0 ->
  0 <= fst sums -> 0 <= snd sums ->
  exists sums' e,
    score_move sums degree e0 = (Ok sums', e) /\
    engine_ok e /\ scaler_ok e /\ 0 <= fst sums' /\ 0 <= snd sums'.
Proof.
  intros Hd Hok (Hs & Hm) Hpos Hneg.
  destruct (record_move_ok degree e0) as (v & pred & e & _ & _ & Hrun & Hp
                                          & Hok' & _ & _ & Hs' & Hm' & _);
    [lra | exact Hok |].
  assert (Hsc : scaler_ok e) by (unfold scaler_ok; rewrite Hs', Hm'; auto).
  destruct (get_scoring_weight_nonneg degree pred e Hd Hp Hsc)
    as (fb & add & neg & Hg & Hadd & Hnegc).
  unfold score_move, mbind. rewrite Hrun, Hg. unfold mret.
  do 2 eexists. split; [reflexivity|].
  cbn [fst snd].
  split; [exact Hok'|]. split; [exact Hsc|]. split; lra.
Qed.

Lemma score_loop_spec (degrees : list R) (sums : R * R) (e0 : Engine) :
  Forall (fun d => 0 <= d <= 360) degrees ->
  engine_ok e0 -> scaler_ok e0 -> 0 <= fst sums -> 0 <= snd sums ->
  exists sums' e,
    mfoldM score_move degrees sums e0 = (Ok sums', e) /\
    0 <= fst sums' /\ 0 <= snd sums'.
Proof.
  intros Hall. revert sums e0.
  induction Hall as [|d l Hd Hl IH]; intros sums e0 Hok Hsc Hpos Hneg.
  - exists sums, e0. repeat split; auto.
  - destruct (score_move_spec sums d e0 Hd Hok Hsc Hpos Hneg)
      as (s1 & e1 & Hrun & Hok1 & Hsc1 & Hp1 & Hn1).
    destruct (IH s1 e1 Hok1 Hsc1 Hp1 Hn1) as (s2 & e2 & Hrun2 & Hp2 & Hn2).
    exists s2, e2. cbn [mfoldM]. unfold mbind. rewrite Hrun.
    split; [exact Hrun2|]. split; assumption.
Qed.

Lemma final_score_range (pos_sum neg_sum : R) :
  0 <= pos_sum -> 0 <= neg_sum ->
  (pos_sum = 0 /\ neg_sum = 0 /\
   final_score pos_sum neg_sum = Raise ZeroDivisionError) \/
  (0 < pos_sum + neg_sum /\
   exists r, final_score pos_sum neg_sum = Ok r /\ 0 <= r <= 200).
Proof.
  intros Hp Hn. unfold final_score, py_div.
  destruct (Rlt_dec pos_sum neg_sum) as [Hlt|Hge].
  - right. split; [lra|].
    destruct (Req_dec_T neg_sum 0); [lra|]. cbn [rbind].
    eexists. split; [reflexivity|].
    assert (0 <= pos_sum / neg_sum < 1).
    { split.
      - apply Rmult_le_pos; [lra|]. left. apply Rinv_0_lt_compat. lra.
      - apply Rmult_lt_reg_r with neg_sum; [lra|].
        unfold Rdiv. rewrite Rmult_assoc, Rinv_l by lra. lra. }
    lra.
  - destruct (Req_dec_T pos_sum 0) as [H0|H0].
    + left. split; [lra|]. split; [lra | reflexivity].
    + right. split; [lra|]. cbn [rbind].
      eexists. split; [reflexivity|].
      assert (0 <= neg_sum / pos_sum <= 1).
      { split.
        - apply Rmult_le_pos; [lra|]. left. apply Rinv_0_lt_compat. lra.
        - apply Rmult_le_reg_r with pos_sum; [lra|].
          unfold Rdiv. rewrite Rmult_assoc, Rinv_l by lra. lra. }
      lra.
Qed.

(** A round of two or more moves either has so many of them that the
    construction overflows, or its engine is the fresh engine of its
    length. *)
Lemma series_construction (degrees : list R) :
  (2 <= length degrees)%nat ->
  ((float_int_bound <= Z.of_nat (length degrees))%Z /\
   test_score_move_series degrees = Raise OverflowError) \/
  ((1 < Z.of_nat (length degrees) < float_int_bound)%Z /\
   __init__ (Z.of_nat (length degrees))
   = Ok (fresh_engine (Z.of_nat (length degrees)))).
Proof.
  intros Hlen.
  destruct (Z_lt_ge_dec (Z.of_nat (length degrees)) float_int_bound)
    as [Hlt|Hge].
  - right. split; [lia|]. apply init_ok. lia.
  - left. split; [lia|]. unfold test_score_move_series.
    rewrite init_overflow by lia. reflexivity.
Qed.

(** A round of two or more valid angles either ends in the division
    [0 / 0] or returns a score between 0 and 200 (a round of
    [2^1024 - 2^970] moves or more, were there one, would overflow at
    construction). *)
Lemma test_score_move_series_range (degrees : list R) :
  Forall (fun d => 0 <= d <= 360) degrees -> (2 <= length degrees)%nat ->
  test_score_move_series degrees = Raise ZeroDivisionError \/
  (exists r, test_score_move_series degrees = Ok r /\ 0 <= r <= 200) \/
  ((float_int_bound <= Z.of_nat (length degrees))%Z /\
   test_score_move_series degrees = Raise OverflowError).
Proof.
  intros Hall Hlen.
  destruct (series_construction degrees Hlen) as [Hbig|[Hd Hinit]];
    [right; right; exact Hbig|].
  unfold test_score_move_series. rewrite Hinit. cbn [rbind].
  assert (Hd1 : (1 < Z.of_nat (length degrees))%Z) by lia.
  destruct (fresh_engine_ok _ Hd1) as [Hok Hsc].
  destruct (score_loop_spec degrees (0, 0) _ Hall Hok Hsc)
    as (sums & e & Hrun & Hp & Hn); cbn [fst snd]; try lra.
  rewrite Hrun. cbn [fst rbind].
  destruct (final_score_range (fst sums) (snd sums) Hp Hn)
    as [(_ & _ & H)|(_ & H)]; auto.
Qed.

(** * Further properties of the code *)

(** ** [get_index_at_offset] *)

(** X1: [get_index_at_offset] is the true modulo of [t + offset], also for
    negative arguments: the result lies in [0, StateCount), whole turns do
    not matter, offsets compose and an offset is undone by its opposite. *)
Theorem get_index_at_offset_circular (t a b : Z) :
  get_index_at_offset t a = ((t + a) mod StateCount)%Z /\
  (0 <= get_index_at_offset t a < StateCount)%Z /\
  get_index_at_offset t (a + b * StateCount) = get_index_at_offset t a /\
  get_index_at_offset (get_index_at_offset t a) b
  = get_index_at_offset t (a + b) /\
  get_index_at_offset (get_index_at_offset t a) (- a)
  = get_index_at_offset t 0.
Proof.
  assert (Hc : forall x y,
             get_index_at_offset (get_index_at_offset x y) b
             = get_index_at_offset x (y + b)).
  { intros x y. rewrite !get_index_at_offset_mod.
    rewrite Zplus_mod_idemp_l. f_equal. lia. }
  split; [apply get_index_at_offset_mod|].
  split; [apply get_index_at_offset_range|].
  split.
  { rewrite !get_index_at_offset_mod.
    replace (t + (a + b * StateCount))%Z with (t + a + b * StateCount)%Z
      by lia.
    apply Z_mod_plus_full. }
  split; [apply Hc|].
  rewrite !get_index_at_offset_mod.
  rewrite Zplus_mod_idemp_l. f_equal. lia.
Qed.

(** ** [initialize] *)

Lemma template_abs_sum (t : Z) :
  (0 <= t < StateCount)%Z ->
  py_sum (map Rabs (states (template t))) = 226 / 15.
Proof.
  intros Ht. unfold StateCount in Ht.
  assert (H : exists n, (n < 30)%nat /\ t = Z.of_nat n)
    by (exists (Z.to_nat t); split; lia).
  destruct H as (n & Hn & ->). clear Ht.
  do 30 (destruct n as [|n];
         [eval_model; unfold BaseDiffPerState, StateCount;
          repeat match goal with
          | |- context [Rabs ?x] =>
              first [ rewrite (Rabs_pos_eq x) by lra
                    | rewrite (Rabs_left x) by lra ]
          end; lra|]).
  lia.
Qed.

(** X2: the normalisation constant [SumMoveWeights], which [initialize]
    takes from template 0 alone, is 226/15 and is the sum of the absolute
    weights of every one of the templates. *)
Theorem SumMoveWeights_of_every_template (t : Z) :
  (0 <= t < StateCount)%Z ->
  exists m,
    py_index MoveWeights t = Ok m /\
    py_sum (map Rabs (states m)) = SumMoveWeights /\
    SumMoveWeights = 226 / 15.
Proof.
  intros Ht. exists (template t).
  split; [now apply MoveWeights_index|].
  rewrite SumMoveWeights_eq. split; [now apply template_abs_sum | reflexivity].
Qed.

Lemma SumMoveWeights_of_every_template_witness :
  exists m,
    py_index MoveWeights 17 = Ok m /\
    py_sum (map Rabs (states m)) = SumMoveWeights.
Proof.
  assert (Ht : (0 <= 17 < StateCount)%Z) by (unfold StateCount; lia).
  destruct (SumMoveWeights_of_every_template 17 Ht) as (m & Hm & Hs & _).
  exists m. split; [exact Hm | exact Hs].
Defined.

Lemma initialize_move_template (t : Z) :
  (0 <= t < StateCount)%Z -> initialize_move t = Ok (template t).
Proof.
  intros Ht. unfold StateCount in Ht.
  assert (H : exists n, (n < 30)%nat /\ t = Z.of_nat n)
    by (exists (Z.to_nat t); split; lia).
  destruct H as (n & Hn & ->). clear Ht.
  do 30 (destruct n as [|n]; [eval_model; reflexivity|]).
  lia.
Qed.

Lemma initialize_templates_loop (l : list Z) (mw : list Move) :
  Forall (fun t => 0 <= t < StateCount)%Z l ->
  foldM (fun (mw : list Move) (t : Z) =>
           move <- initialize_move t ;; Ok (mw ++ [move])) l mw
  = Ok (mw ++ map template l).
Proof.
  intros Hl. revert mw.
  induction Hl as [|t l Ht Hl IH]; intros mw; cbn [foldM map].
  - now rewrite app_nil_r.
  - rewrite initialize_move_template by exact Ht. cbn [rbind].
    rewrite IH, <- app_assoc. reflexivity.
Qed.

Lemma range_bounds (n : Z) : Forall (fun t => 0 <= t < n)%Z (range n).
Proof.
  unfold range, range2. apply Forall_forall. intros t Hin.
  apply in_map_iff in Hin. destruct Hin as (k & <- & Hk).
  apply in_seq in Hk. lia.
Qed.

Lemma initialize_sum_loop (mw : list Move) (m0 : Move) (a m : nat) (s : R) :
  py_index mw 0 = Ok m0 -> vec_ok m0 -> (a + m <= 30)%nat ->
  foldM (fun (s : R) (j : Z) =>
           m0 <- py_index mw 0 ;;
           x <- py_index (states m0) j ;;
           Ok (s + Rabs x))
        (map Z.of_nat (seq a m)) s
  = Ok (s + (sumf (fun j => Rabs (vec m0 j)) (a + m)
             - sumf (fun j => Rabs (vec m0 j)) a)).
Proof.
  intros H0 Hv. set (f := fun (s : R) (j : Z) => _). revert a s.
  induction m as [|m IH]; intros a s Ham; cbn [foldM map seq].
  - rewrite Nat.add_0_r. f_equal. lra.
  - unfold f at 1. rewrite H0. cbn [rbind].
    rewrite (py_index_nat _ a 0) by (unfold vec_ok in Hv; lia).
    cbn [rbind]. rewrite IH by lia.
    replace (S a + m)%nat with (a + S m)%nat by lia.
    rewrite (sumf_S _ a). unfold vec at 3. f_equal. lra.
Qed.

(** X3: [initialize] adds to the class attributes it finds: called on
    [(mw, s)] it appends the 30 templates to [mw] and adds to [s] the
    absolute weights of the first entry of the resulting list, so the one
    call on [([], 0)] gives the templates and 226/15, and a second call
    would append a second copy and double the constant. *)
Theorem initialize_accumulates (mw : list Move) (s : R) :
  (mw = [] ->
   initialize (mw, s) = Ok (map template (range StateCount), s + 226 / 15)) /\
  (forall m0 rest, mw = m0 :: rest -> vec_ok m0 ->
   initialize (mw, s)
   = Ok (mw ++ map template (range StateCount),
         s + sumf (fun j => Rabs (vec m0 j)) 30)) /\
  (mw = MoveWeights ->
   initialize (mw, s)
   = Ok (MoveWeights ++ MoveWeights, s + SumMoveWeights)).
Proof.
  assert (G : forall m0 rest, mw = m0 :: rest -> vec_ok m0 ->
            initialize (mw, s)
            = Ok (mw ++ map template (range StateCount),
                  s + sumf (fun j => Rabs (vec m0 j)) 30)).
  { intros m0 rest -> Hv. unfold initialize. cbn [fst snd].
    rewrite initialize_templates_loop by apply range_bounds.
    cbn [rbind]. change StateCount with (Z.of_nat 30) at 2.
    rewrite range_nat.
    rewrite (initialize_sum_loop _ m0 0 30) by (auto; reflexivity).
    cbn [rbind]. f_equal. f_equal. cbn [Nat.add].
    change (sumf (fun j => Rabs (vec m0 j)) 0) with 0. lra. }
  assert (T0 : sumf (fun j => Rabs (vec (template 0) j)) 30 = 226 / 15).
  { rewrite <- (template_abs_sum 0) by (unfold StateCount; lia).
    unfold py_sum. cbn [sumf]. unfold vec.
    change (states (template 0))
      with (map (template_weight 0) (range StateCount)).
    cbn [range range2 StateCount Z.sub Z.to_nat Pos.to_nat Pos.iter_op
         Init.Nat.add seq map nth fold_left Z.of_nat Z.add].
    reflexivity. }
  split; [|split; [exact G|]].
  - intros ->. unfold initialize. cbn [fst snd].
    rewrite initialize_templates_loop by apply range_bounds.
    cbn [rbind app]. change StateCount with (Z.of_nat 30) at 2.
    rewrite range_nat.
    rewrite (initialize_sum_loop _ (template 0) 0 30)
      by (try reflexivity; lia).
    cbn [rbind]. f_equal. f_equal. cbn [Nat.add].
    change (sumf (fun j => Rabs (vec (template 0) j)) 0) with 0.
    rewrite T0. lra.
  - intros ->. rewrite SumMoveWeights_eq, <- T0, MoveWeights_eq.
    apply (G (template 0) (map template (tl (range StateCount))));
      reflexivity.
Qed.

Lemma initialize_accumulates_witness :
  initialize ([], 1) = Ok (map template (range StateCount), 1 + 226 / 15) /\
  initialize ([Move_new StateCount], 1)
  = Ok ([Move_new StateCount] ++ map template (range StateCount),
        1 + sumf (fun j => Rabs (vec (Move_new StateCount) j)) 30) /\
  initialize (MoveWeights, 226 / 15)
  = Ok (MoveWeights ++ MoveWeights, 226 / 15 + SumMoveWeights).
Proof.
  split; [|split].
  - apply (proj1 (initialize_accumulates [] 1)). reflexivity.
  - apply (proj1 (proj2 (initialize_accumulates [Move_new StateCount] 1))
             (Move_new StateCount) []); reflexivity.
  - apply (proj2 (proj2 (initialize_accumulates MoveWeights (226 / 15)))).
    reflexivity.
Defined.

(** ** [get_target_state_and_weights] and [get_move] *)

(** In exact arithmetic the bin is the floor of the angle's position in
    bins, the two weights sum to 1, and the weight of the bin's own
    template never drops below 29/30: the neighbour gets [(1 - f) / 30],
    with [f] the fractional position inside the bin. *)
Lemma target_weights_favour_own_template (degrees : R) :
  exists t w1 w2,
    get_target_state_and_weights degrees = (t, w1, w2) /\
    t = Zfloor (30 * (norm_degrees degrees / 360)) /\
    w1 + w2 = 1 /\ 29 / 30 <= w1 < 1 /\ 0 < w2 <= 1 / 30 /\
    w2 = (1 - (30 * (norm_degrees degrees / 360) - IZR t)) / 30.
Proof.
  destruct (target_state_and_weights_spec degrees)
    as (t & w1 & w2 & Hg & Ht & Hs & Hw & Hw2).
  exists t, w1, w2. repeat split; auto; lra.
Qed.

Lemma circular_distance_step (t k : Z) :
  (- 1 <= circular_distance t (k - 1) - circular_distance t k <= 1)%Z.
Proof.
  unfold circular_distance, StateCount.
  Z.div_mod_to_equations. lia.
Qed.

Lemma template_weight_step (t k : Z) :
  Rabs (template_weight t (k - 1) - template_weight t k) <= 4 / 30.
Proof.
  unfold template_weight, BaseDiffPerState, StateCount.
  destruct (circular_distance_step t k) as [Hlo Hhi].
  apply IZR_le in Hlo, Hhi. rewrite minus_IZR in Hlo, Hhi.
  apply Rabs_le. lra.
Qed.

(** X5: the vector [get_move] returns for an accepted angle has
    [StateCount] entries; entry [k] is the blend
    [template(t)[k] * t1_weight + template(t)[k-1] * t2_weight], lies within
    [-1, 1], and is never further than 2/225 from [template(t)[k]]. *)
Theorem get_move_stays_near_template (degrees : R) (v : Move) :
  get_move degrees = Ok v ->
  exists t w1 w2,
    get_target_state_and_weights degrees = (t, w1, w2) /\
    length (states v) = Z.to_nat StateCount /\
    forall k, (k < 30)%nat ->
      vec v k = template_weight t (Z.of_nat k) * w1
                + template_weight t (Z.of_nat k - 1) * w2 /\
      - 1 <= vec v k <= 1 /\
      Rabs (vec v k - template_weight t (Z.of_nat k)) <= 2 / 225.
Proof.
  intros Hv.
  destruct (get_move_cases degrees) as (t & w1 & w2 & Hg & [[Ht Hb]|[_ Hr]]);
    [|congruence].
  assert (v = blend t w1 w2) as -> by congruence.
  destruct (target_state_and_weights_spec degrees)
    as (t' & a1 & a2 & Hg' & _ & Hs & Hw & _).
  assert (a1 = w1 /\ a2 = w2) as (-> & ->)
    by (rewrite Hg in Hg'; now inversion Hg').
  exists t, w1, w2. split; [exact Hg|]. split; [reflexivity|].
  intros k Hk. unfold vec. rewrite blend_nth by exact Hk.
  pose proof (template_weight_bounds t (Z.of_nat k)) as B1.
  pose proof (template_weight_bounds t (Z.of_nat k - 1)) as B2.
  pose proof (template_weight_step t (Z.of_nat k)) as Hstep.
  set (x := template_weight t (Z.of_nat k)) in *.
  set (y := template_weight t (Z.of_nat k - 1)) in *.
  split; [reflexivity|]. split; [nra|].
  replace (x * w1 + y * w2 - x) with (w2 * (y - x)) by nra.
  rewrite Rabs_mult, (Rabs_pos_eq w2) by lra.
  apply Rle_trans with (1 / 30 * (4 / 30)); [|lra].
  apply Rmult_le_compat; try lra. apply Rabs_pos.
Qed.

Lemma get_move_stays_near_template_witness :
  exists t w1 w2,
    get_target_state_and_weights 24 = (t, w1, w2) /\
    Rabs (vec (blend 2 (29 / 30) (1 / 30)) 5
          - template_weight t (Z.of_nat 5)) <= 2 / 225.
Proof.
  assert (Hg : get_move 24 = Ok (blend 2 (29 / 30) (1 / 30))).
  { replace 24 with (12 * IZR 2) by lra. apply get_move_bin_aligned. lia. }
  destruct (get_move_stays_near_template 24 _ Hg)
    as (t & w1 & w2 & Ht & _ & Hk).
  exists t, w1, w2. split; [exact Ht|].
  apply (Hk 5%nat). lia.
Defined.

Lemma blend_sum_zero (t : Z) (w1 w2 : R) :
  (- 30 <= t < 30)%Z -> py_sum (states (blend t w1 w2)) = 0.
Proof.
  intros Ht.
  assert (H : exists n, (n < 60)%nat /\ t = (Z.of_nat n - 30)%Z)
    by (exists (Z.to_nat (t + 30)); split; lia).
  destruct H as (n & Hn & ->). clear Ht.
  do 60 (destruct n as [|n];
         [eval_model; unfold BaseDiffPerState, StateCount; lra|]).
  lia.
Qed.

(** X6: the entries of every vector [get_move] returns sum to 0, whatever
    the angle and the weights of the blend. *)
Theorem get_move_sums_to_zero (degrees : R) (v : Move) :
  get_move degrees = Ok v -> py_sum (states v) = 0.
Proof.
  intros Hv.
  destruct (get_move_cases degrees) as (t & w1 & w2 & Hg & [[Ht Hb]|[_ Hr]]);
    [|congruence].
  assert (v = blend t w1 w2) as -> by congruence.
  now apply blend_sum_zero.
Qed.

Lemma get_move_sums_to_zero_witness :
  py_sum (states (blend 2 (29 / 30) (1 / 30))) = 0.
Proof.
  assert (Hg : get_move 24 = Ok (blend 2 (29 / 30) (1 / 30))).
  { replace 24 with (12 * IZR 2) by lra. apply get_move_bin_aligned. lia. }
  exact (get_move_sums_to_zero 24 _ Hg).
Defined.

(** ** [record_move_and_get_predicted] across calls *)

Lemma get_move_accepted_range (degrees : R) (v : Move) :
  get_move degrees = Ok v -> - 360 <= degrees <= 360.
Proof.
  intros Hv.
  destruct (Rlt_dec degrees (- 360)) as [H|H].
  { rewrite get_move_rejects in Hv by (left; exact H). discriminate. }
  destruct (Rlt_dec 360 degrees) as [H'|H'].
  { rewrite get_move_rejects in Hv by (right; exact H'). discriminate. }
  lra.
Qed.

Lemma push_history_firstn (depth : Z) (move : Move) (h : list Move) :
  (Z.of_nat (length h) <= depth)%Z ->
  push_history depth move h = firstn (Z.to_nat depth) (move :: h).
Proof.
  intros Hl. unfold push_history.
  change (length (move :: h)) with (S (length h)).
  destruct (Z.ltb_spec depth (Z.of_nat (S (length h)))) as [H|H].
  - rewrite removelast_firstn_len.
    change (length (move :: h)) with (S (length h)).
    rewrite Nat.pred_succ. f_equal. lia.
  - symmetry. apply firstn_all2.
    change (length (move :: h)) with (S (length h)). lia.
Qed.

(** X7: a call with an accepted angle on a well-formed engine returns a
    vector of [StateCount] entries and keeps the engine well-formed: the
    depth, the two scaling constants and the shape of the tensor stay as
    they are, and the history becomes the new vector followed by the old
    history, cut to the first [history_depth] entries (the oldest entry is
    evicted exactly when the history was full). *)
Theorem record_move_keeps_engine (degrees : R) (vector : Move)
    (e0 : Engine) :
  get_move degrees = Ok vector -> engine_ok e0 ->
  exists pred e,
    record_move_and_get_predicted degrees e0 = (Ok pred, e) /\
    length (states pred) = Z.to_nat StateCount /\
    engine_ok e /\
    history_depth e = history_depth e0 /\
    scoreScaler e = scoreScaler e0 /\
    ScoreScalerMiddle e = ScoreScalerMiddle e0 /\
    length (weights e) = length (weights e0) /\
    history e
    = firstn (Z.to_nat (history_depth e0)) (vector :: history e0) /\
    length (history e)
    = Nat.min (Z.to_nat (history_depth e0)) (S (length (history e0))).
Proof.
  intros Hv Hok.
  pose proof (get_move_accepted_range degrees vector Hv) as Hd.
  destruct (record_move_ok degrees e0 Hd Hok)
    as (v & pred & e & Hmv & _ & Hrun & Hp & Hok' & Hh & Hdp & Hs & Hm & _).
  assert (v = vector) as -> by congruence.
  exists pred, e.
  destruct Hok as (_ & _ & Hlen & Hdepth).
  assert (Hpush : history e
                  = firstn (Z.to_nat (history_depth e0))
                      (vector :: history e0)).
  { rewrite Hh. apply push_history_firstn. lia. }
  split; [exact Hrun|]. split; [exact Hp|]. split; [exact Hok'|].
  split; [exact Hdp|]. split; [exact Hs|]. split; [exact Hm|].
  split.
  { destruct Hok' as (_ & _ & _ & Hdepth'). lia. }
  split; [exact Hpush|].
  rewrite Hpush, length_firstn. reflexivity.
Qed.

Lemma record_move_keeps_engine_witness :
  exists pred e,
    record_move_and_get_predicted 24 (fresh_engine 2) = (Ok pred, e) /\
    engine_ok e /\
    history e = firstn 2 [blend 2 (29 / 30) (1 / 30)].
Proof.
  assert (H2 : (1 < 2)%Z) by lia.
  assert (Hg : get_move 24 = Ok (blend 2 (29 / 30) (1 / 30))).
  { replace 24 with (12 * IZR 2) by lra. apply get_move_bin_aligned. lia. }
  destruct (record_move_keeps_engine 24 _ (fresh_engine 2) Hg
              (proj1 (fresh_engine_ok 2 H2)))
    as (pred & e & Hrun & _ & Hok & _ & _ & _ & _ & Hh & _).
  exists pred, e. split; [exact Hrun|]. split; [exact Hok | exact Hh].
Defined.

Lemma firstn_cons_firstn {A : Type} (n : nat) (x : A) (l : list A) :
  firstn n (x :: firstn n l) = firstn n (x :: l).
Proof.
  destruct n as [|n]; [reflexivity|]. rewrite !firstn_cons. f_equal.
  rewrite firstn_firstn. f_equal. lia.
Qed.

Lemma correlation_snoc (vs : list Move) (v : Move) (d i j : nat) :
  correlation (vs ++ [v]) d i j
  = correlation vs d i j
    + (if (d <? length vs)%nat
       then vec v i * vec (nth (length vs - d - 1) vs (mkMove [])) j
       else 0).
Proof.
  unfold correlation. rewrite length_app. cbn [length].
  rewrite Nat.add_1_r, sumf_S. f_equal.
  - apply sumf_ext. intros k Hk.
    destruct (Nat.ltb_spec d k); [|reflexivity].
    rewrite !app_nth1 by lia. reflexivity.
  - destruct (Nat.ltb_spec d (length vs)); [|reflexivity].
    rewrite nth_middle, app_nth1 by lia. reflexivity.
Qed.

(** X8: the tensor is the running correlation of the round.  [__init__]
    returns an engine that holds the empty round, and a call that records
    [vector] on an engine holding the round [vs] leaves it holding
    [vs ++ [vector]]: cell [d][i][j] is the sum, over the moves [k] with
    more than [d] predecessors, of bin [i] of move [k] times bin [j] of
    the move [d + 1] places before it, also after old moves were
    evicted from the history. *)
Theorem record_move_accumulates_correlation (vs : list Move) (degrees : R)
    (vector : Move) (e0 : Engine) :
  (forall depth, __init__ depth = Ok e0 -> holds_round [] e0) /\
  (get_move degrees = Ok vector -> engine_ok e0 -> holds_round vs e0 ->
   exists pred e,
     record_move_and_get_predicted degrees e0 = (Ok pred, e) /\
     engine_ok e /\ holds_round (vs ++ [vector]) e).
Proof.
  split.
  { intros depth Hinit.
    destruct (init_accepts depth e0 Hinit) as [_ ->].
    split; cbn [history weights fresh_engine].
    - now rewrite firstn_nil.
    - intros d i j _ _ _. rewrite zero_tensor_cell. reflexivity. }
  intros Hv Hok (Hh & Hc).
  pose proof (get_move_accepted_range degrees vector Hv) as Hd.
  destruct (record_move_ok degrees e0 Hd Hok)
    as (v & pred & e & Hmv & _ & Hrun & _ & Hok' & Hpush & Hdp & _ & _ & _
        & B1 & B2).
  assert (v = vector) as -> by congruence.
  exists pred, e. split; [exact Hrun|]. split; [exact Hok'|].
  destruct Hok as (_ & _ & Hlen & Hdepth).
  assert (HD : length (weights e) = length (weights e0)).
  { destruct Hok' as (_ & _ & _ & Hdepth'). lia. }
  assert (Hhl : length (history e0)
                = Nat.min (length (weights e0)) (length vs))
    by (rewrite Hh, length_firstn, length_rev; reflexivity).
  split.
  - rewrite Hpush, push_history_firstn by lia.
    rewrite HD, Hdepth, Nat2Z.id, Hh, rev_app_distr. cbn [rev app].
    apply firstn_cons_firstn.
  - intros d i j Hdw Hi Hj. rewrite HD in Hdw.
    rewrite correlation_snoc.
    destruct (Nat.ltb_spec d (length vs)) as [Hdn|Hdn].
    + rewrite B1 by lia. rewrite Hc by assumption. f_equal. f_equal.
      rewrite Hh, nth_firstn.
      destruct (Nat.ltb_spec d (length (weights e0))); [|lia].
      rewrite rev_nth by lia. f_equal. f_equal. lia.
    + rewrite B2 by lia. rewrite Hc by assumption. lra.
Qed.

(** ** [get_scoring_weight] *)

(** X9: the total weight a move hands out does not depend on the move:
    for one predicted vector, any two actual angles in [0,360] get the same
    [pos + neg], twice the range normalizer times the recency scaler; and
    the feedback is the half difference [pos - neg] divided by
    [ScoreScalerMiddle]. *)
Theorem scoring_total_independent_of_angle (a b : R) (predicted : Move)
    (e : Engine) :
  0 <= a <= 360 -> 0 <= b <= 360 -> vec_ok predicted -> scaler_ok e ->
  0 < py_sum (map Rabs (states predicted)) ->
  exists fa pa na fb pb nb max_state min_state scaler,
    get_scoring_weight a predicted e = (Ok (fa, pa, na), e) /\
    get_scoring_weight b predicted e = (Ok (fb, pb, nb), e) /\
    py_max (states predicted) = Ok max_state /\
    py_min (states predicted) = Ok min_state /\
    math_pow (INR (length (history e))) (scoreScaler e) = Ok scaler /\
    pa + na = pb + nb /\
    pa + na
    = 2 * (Rmax max_state (Rabs min_state)
           / py_sum (map Rabs (states predicted)) * SumMoveWeights) * scaler /\
    fa * (2 * ScoreScalerMiddle e) = pa - na /\
    fb * (2 * ScoreScalerMiddle e) = pb - nb.
Proof.
  intros Ha Hb Hp Hs Hsum.
  destruct (get_scoring_weight_run a predicted e Ha Hp Hs Hsum)
    as (ta & wa1 & wa2 & hi & lo & sc & _ & Hmax & Hmin & Hpow & _ & _ & _
        & _ & _ & _ & Hra).
  destruct (get_scoring_weight_run b predicted e Hb Hp Hs Hsum)
    as (tb & wb1 & wb2 & hi' & lo' & sc' & _ & Hmax' & Hmin' & Hpow' & _ & _
        & _ & _ & _ & _ & Hrb).
  assert (hi' = hi) as -> by congruence.
  assert (lo' = lo) as -> by congruence.
  assert (sc' = sc) as -> by congruence.
  cbv zeta in Hra, Hrb. destruct Hs as [_ Hmid].
  do 6 eexists. exists hi, lo, sc.
  split; [exact Hra|]. split; [exact Hrb|].
  split; [exact Hmax|]. split; [exact Hmin|]. split; [exact Hpow|].
  split; [lra|]. split; [lra|]. split; field; lra.
Qed.

Lemma target_state_rejected (degrees : R) (t : Z) (w1 w2 : R) :
  degrees < - 360 \/ 360 < degrees ->
  get_target_state_and_weights degrees = (t, w1, w2) ->
  (t < - 30 \/ 30 <= t)%Z.
Proof.
  intros Hd Hg.
  destruct (target_state_and_weights_spec degrees)
    as (t' & a1 & a2 & Hg' & Ht & _).
  assert (t' = t) as -> by (rewrite Hg in Hg'; now inversion Hg').
  rewrite norm_degrees_id in Ht by lra.
  pose proof (Zfloor_bound (30 * (degrees / 360))) as Hb.
  rewrite <- Ht in Hb.
  destruct Hd as [Hd|Hd].
  - left. apply lt_IZR. lra.
  - right. assert (H : 29 < IZR t) by lra.
    apply lt_IZR in H. lia.
Qed.

(** X10: the two edges of [get_scoring_weight].  A predicted vector with
    no weight (all zero, or empty) scores [(0, 0, 0)] for every angle,
    valid or not; a predicted vector with some weight makes the call raise
    IndexError, the engine untouched, for every angle below -360 or
    above 360. *)
Theorem get_scoring_weight_edges (degrees : R) (predicted : Move)
    (e : Engine) :
  (~ 0 < py_sum (map Rabs (states predicted)) ->
   get_scoring_weight degrees predicted e = (Ok (- 0, 0, 0), e)) /\
  (0 < py_sum (map Rabs (states predicted)) -> vec_ok predicted ->
   degrees < - 360 \/ 360 < degrees ->
   get_scoring_weight degrees predicted e = (Raise IndexError, e)).
Proof.
  unfold get_scoring_weight.
  destruct (get_target_state_and_weights degrees) as [[t w1] w2] eqn:Hg.
  cbv zeta. split.
  - intros Hz. destruct (Rlt_dec _ _); [contradiction | reflexivity].
  - intros Hs Hp Hd. destruct (Rlt_dec _ _); [|contradiction].
    pose proof (target_state_rejected degrees t w1 w2 Hd Hg) as Ht.
    unfold mbind, lift.
    rewrite py_index_out by (unfold vec_ok in Hp; rewrite Hp; lia).
    reflexivity.
Qed.

Lemma get_scoring_weight_edges_witness :
  get_scoring_weight 400 (mkMove []) (fresh_engine 2)
  = (Ok (- 0, 0, 0), fresh_engine 2) /\
  get_scoring_weight 400 (mkMove (repeat 1 30)) (fresh_engine 2)
  = (Raise IndexError, fresh_engine 2).
Proof.
  split.
  - apply (proj1 (get_scoring_weight_edges 400 (mkMove []) (fresh_engine 2))).
    unfold py_sum. simpl. lra.
  - apply (proj2 (get_scoring_weight_edges 400 (mkMove (repeat 1 30))
                    (fresh_engine 2))).
    + unfold py_sum. simpl. rewrite Rabs_R1. lra.
    + reflexivity.
    + right. lra.
Defined.

(** ** The final formula *)

(** X11: the final score is symmetric around 100: swapping two positive
    sums turns the score [r] into [200 - r]; equal sums give 100, a zero
    positive sum gives 0 and a zero negative sum gives 200. *)
Theorem final_score_symmetric (pos_sum neg_sum : R) :
  (0 < pos_sum -> 0 < neg_sum ->
   exists r,
     final_score pos_sum neg_sum = Ok r /\
     final_score neg_sum pos_sum = Ok (200 - r) /\
     0 < r < 200 /\ (pos_sum = neg_sum -> r = 100) /\
     (pos_sum < neg_sum -> r < 100) /\ (neg_sum < pos_sum -> 100 < r)) /\
  (0 < neg_sum -> final_score 0 neg_sum = Ok 0) /\
  (0 < pos_sum -> final_score pos_sum 0 = Ok 200).
Proof.
  split; [|split].
  - intros Hp Hn. unfold final_score, py_div.
    assert (Hq : 0 < pos_sum / neg_sum) by now apply Rdiv_lt_0_compat.
    assert (Hq' : 0 < neg_sum / pos_sum) by now apply Rdiv_lt_0_compat.
    assert (Hlt : pos_sum < neg_sum -> pos_sum / neg_sum < 1).
    { intros H. apply Rmult_lt_reg_r with neg_sum; [lra|].
      unfold Rdiv. rewrite Rmult_assoc, Rinv_l by lra. lra. }
    assert (Hgt : neg_sum < pos_sum -> neg_sum / pos_sum < 1).
    { intros H. apply Rmult_lt_reg_r with pos_sum; [lra|].
      unfold Rdiv. rewrite Rmult_assoc, Rinv_l by lra. lra. }
    assert (Heq : pos_sum = neg_sum -> neg_sum / pos_sum = 1).
    { intros ->. unfold Rdiv. apply Rinv_r. lra. }
    destruct (Req_dec_T neg_sum 0); [lra|].
    destruct (Req_dec_T pos_sum 0); [lra|].
    destruct (Rlt_dec pos_sum neg_sum) as [H1|H1];
      destruct (Rlt_dec neg_sum pos_sum) as [H2|H2]; try lra; cbn [rbind].
    + specialize (Hlt H1). eexists. split; [reflexivity|].
      split; [f_equal; lra|]. repeat split; intros; lra.
    + specialize (Hgt H2). eexists. split; [reflexivity|].
      split; [f_equal; lra|]. repeat split; intros; lra.
    + assert (pos_sum = neg_sum) as Hpn by lra. specialize (Heq Hpn).
      subst neg_sum. eexists. split; [reflexivity|].
      split; [f_equal; lra|]. repeat split; intros; lra.
  - intros Hn. unfold final_score, py_div.
    destruct (Rlt_dec 0 neg_sum); [|lra].
    destruct (Req_dec_T neg_sum 0); [lra|]. cbn [rbind].
    f_equal. unfold Rdiv. lra.
  - intros Hp. unfold final_score, py_div.
    destruct (Rlt_dec pos_sum 0); [lra|].
    destruct (Req_dec_T pos_sum 0); [lra|]. cbn [rbind].
    f_equal. unfold Rdiv. lra.
Qed.

Lemma final_score_symmetric_witness :
  (exists r, final_score 1 3 = Ok r /\ final_score 3 1 = Ok (200 - r)) /\
  final_score 0 3 = Ok 0 /\ final_score 3 0 = Ok 200.
Proof.
  split; [|split].
  - destruct (proj1 (final_score_symmetric 1 3)) as (r & H1 & H2 & _);
      try lra.
    exists r. split; [exact H1 | exact H2].
  - apply (proj1 (proj2 (final_score_symmetric 0 3))). lra.
  - apply (proj2 (proj2 (final_score_symmetric 3 0))). lra.
Defined.

(** ** [test_score_move_series] *)

(** X12: for a round of two or more angles in [0,360] every move is
    recorded and scored without an exception, both sums are non-negative,
    and the round ends in one of two ways: both sums are 0 and the final
    division raises ZeroDivisionError, or the score returned lies in
    [0, 200].  (The one other case is no Python list: from
    [2^1024 - 2^970] moves on the construction would raise
    OverflowError.) *)
Theorem test_score_move_series_outcomes (degrees : list R) :
  Forall (fun d => 0 <= d <= 360) degrees -> (2 <= length degrees)%nat ->
  ((float_int_bound <= Z.of_nat (length degrees))%Z /\
   test_score_move_series degrees = Raise OverflowError) \/
  exists pos_sum neg_sum e,
    mfoldM score_move degrees (0, 0)
      (fresh_engine (Z.of_nat (length degrees)))
    = (Ok (pos_sum, neg_sum), e) /\
    0 <= pos_sum /\ 0 <= neg_sum /\
    ((pos_sum = 0 /\ neg_sum = 0 /\
      test_score_move_series degrees = Raise ZeroDivisionError) \/
     (0 < pos_sum + neg_sum /\
      exists r, test_score_move_series degrees = Ok r /\ 0 <= r <= 200)).
Proof.
  intros Hall Hlen.
  destruct (series_construction degrees Hlen) as [Hbig|[Hdb Hinit]];
    [left; exact Hbig | right].
  unfold test_score_move_series. rewrite Hinit. cbn [rbind].
  assert (Hd : (1 < Z.of_nat (length degrees))%Z) by lia.
  destruct (fresh_engine_ok _ Hd) as [Hok Hsc].
  destruct (score_loop_spec degrees (0, 0) _ Hall Hok Hsc)
    as ([p n] & e & Hrun & Hp & Hn); cbn [fst snd] in *; try lra.
  exists p, n, e. rewrite Hrun. cbn [fst snd rbind].
  split; [reflexivity|]. split; [exact Hp|]. split; [exact Hn|].
  exact (final_score_range p n Hp Hn).
Qed.

Lemma test_score_move_series_outcomes_witness :
  exists pos_sum neg_sum e,
    mfoldM score_move [0; 90; 180] (0, 0) (fresh_engine 3)
    = (Ok (pos_sum, neg_sum), e) /\ 0 <= pos_sum /\ 0 <= neg_sum.
Proof.
  assert (Hall : Forall (fun d => 0 <= d <= 360) [0; 90; 180]).
  { repeat constructor; lra. }
  assert (Hlen : (2 <= length [0; 90; 180])%nat) by (simpl; lia).
  destruct (test_score_move_series_outcomes [0; 90; 180] Hall Hlen)
    as [[Hbig _]|(p & n & e & Hrun & Hp & Hn & _)].
  { pose proof float_int_bound_large. simpl in Hbig. lia. }
  exists p, n, e. split; [exact Hrun|]. split; [exact Hp | exact Hn].
Defined.

(** X14: a round of fewer than two moves never gets to its moves: the
    construction of its engine raises ValueError for the empty round and
    ZeroDivisionError for a round of one move, whatever the angle. *)
Theorem short_rounds_raise (a : R) :
  test_score_move_series [] = Raise ValueError /\
  test_score_move_series [a] = Raise ZeroDivisionError.
Proof.
  unfold test_score_move_series. split.
  - change (Z.of_nat (length (@nil R))) with 0%Z.
    rewrite init_low by lia. reflexivity.
  - change (Z.of_nat (length [a])) with 1%Z.
    rewrite init_one. reflexivity.
Qed.

Lemma score_loop_rejects (pre post : list R) (d : R) (sums : R * R)
    (e0 : Engine) :
  Forall (fun x => 0 <= x <= 360) pre -> d < - 360 \/ 360 < d ->
  engine_ok e0 -> scaler_ok e0 -> 0 <= fst sums -> 0 <= snd sums ->
  fst (mfoldM score_move (pre ++ d :: post) sums e0) = Raise IndexError.
Proof.
  intros Hpre Hd. revert sums e0.
  induction Hpre as [|x pre Hx Hpre IH]; intros sums e0 Hok Hsc Hp Hn;
    cbn [app mfoldM]; unfold mbind.
  - unfold score_move at 1. unfold mbind.
    rewrite (record_move_raises d IndexError) by now apply get_move_rejects.
    reflexivity.
  - destruct (score_move_spec sums x e0 Hx Hok Hsc Hp Hn)
      as (s1 & e1 & Hrun & Hok1 & Hsc1 & Hp1 & Hn1).
    rewrite Hrun. now apply IH.
Qed.

(** X15: a round of two or more moves whose first angle outside [0,360]
    lies below -360 or above 360 raises IndexError at that move.  (The
    one other case is no Python list: from [2^1024 - 2^970] moves on the
    construction would raise OverflowError.) *)
Theorem round_with_rejected_angle (pre post : list R) (d : R) :
  Forall (fun x => 0 <= x <= 360) pre -> d < - 360 \/ 360 < d ->
  (2 <= length (pre ++ d :: post))%nat ->
  test_score_move_series (pre ++ d :: post) = Raise IndexError \/
  ((float_int_bound <= Z.of_nat (length (pre ++ d :: post)))%Z /\
   test_score_move_series (pre ++ d :: post) = Raise OverflowError).
Proof.
  intros Hpre Hd Hlen.
  destruct (series_construction _ Hlen) as [Hbig|[Hdb Hinit]];
    [right; exact Hbig | left].
  unfold test_score_move_series. rewrite Hinit. cbn [rbind].
  assert (H : (1 < Z.of_nat (length (pre ++ d :: post)))%Z) by lia.
  destruct (fresh_engine_ok _ H) as [Hok Hsc].
  rewrite (score_loop_rejects pre post d (0, 0) _ Hpre Hd Hok Hsc);
    cbn [fst snd]; try lra.
  reflexivity.
Qed.

Lemma round_with_rejected_angle_witness :
  test_score_move_series ([0; 90] ++ 400 :: [180]) = Raise IndexError.
Proof.
  destruct (round_with_rejected_angle [0; 90] [180] 400) as [H|[Hbig _]].
  - repeat constructor; lra.
  - right. lra.
  - simpl. lia.
  - exact H.
  - pose proof float_int_bound_large. simpl in Hbig. lia.
Defined.

Lemma two_move_round_divides_by_zero_witness :
  test_score_move_series [359; - 12] = Raise ZeroDivisionError.
Proof. apply two_move_round_divides_by_zero; lra. Defined.

(** ** [test_score_random_moves] *)



(** ** [calculate_color] *)

Lemma py_fmod_360_range (x : R) : 0 <= py_fmod x 360 < 360.
Proof.
  unfold py_fmod. pose proof (Zfloor_bound (x / 360)) as H. lra.
Qed.

Lemma py_int_unit (x : R) :
  0 <= x <= 1 -> (0 <= py_int (255 * x) <= 255)%Z.
Proof.
  intros Hx. unfold py_int.
  destruct (Rle_dec 0 (255 * x)); [|lra].
  pose proof (Zfloor_bound (255 * x)) as Hb.
  split.
  - apply Zfloor_lub. lra.
  - apply le_IZR. lra.
Qed.

Lemma py_int_complement (x : R) :
  0 <= x <= 1 ->
  (254 <= py_int (255 * (1 - x)) + py_int (255 * x) <= 255)%Z.
Proof.
  intros Hx. unfold py_int.
  destruct (Rle_dec 0 (255 * (1 - x))); [|lra].
  destruct (Rle_dec 0 (255 * x)); [|lra].
  pose proof (Zfloor_bound (255 * (1 - x))) as Ha.
  pose proof (Zfloor_bound (255 * x)) as Hb.
  set (a := Zfloor (255 * (1 - x))) in *.
  set (b := Zfloor (255 * x)) in *.
  assert (H1 : IZR (a + b) <= 255) by (rewrite plus_IZR; lra).
  assert (H2 : 253 < IZR (a + b)) by (rewrite plus_IZR; lra).
  apply le_IZR in H1. apply lt_IZR in H2. lia.
Qed.

(** The turn [calculate_color] colours: the angle folded into [0, 180]. *)
Lemma folded_angle_range (angle : R) :
  let n0 := py_fmod (Rabs angle) 360 in
  0 <= (if Rlt_dec 180 n0 then 360 - n0 else n0) <= 180.
Proof.
  cbv zeta. pose proof (py_fmod_360_range (Rabs angle)) as H.
  destruct (Rlt_dec 180 _); lra.
Qed.

(** X17: every colour [calculate_color] returns is a valid RGB triple:
    each channel lies in [0, 255], red or green is 0, and the three
    channels add up to 254 or 255. *)
Theorem calculate_color_is_rgb (angle : R) :
  exists red green blue,
    calculate_color angle = (red, green, blue) /\
    (0 <= red <= 255)%Z /\ (0 <= green <= 255)%Z /\ (0 <= blue <= 255)%Z /\
    (red = 0 \/ green = 0)%Z /\ (254 <= red + green + blue <= 255)%Z.
Proof.
  unfold calculate_color. cbv zeta.
  pose proof (folded_angle_range angle) as Hn. cbv zeta in Hn.
  set (n := if Rlt_dec 180 _ then _ else _) in *.
  destruct (Rle_dec n 90) as [H90|H90].
  - do 3 eexists. split; [reflexivity|].
    assert (Hx : 0 <= n / 90 <= 1) by lra.
    pose proof (py_int_unit (n / 90) Hx) as Hb.
    pose proof (py_int_complement (n / 90) Hx) as Hs.
    assert (Hx' : 0 <= 1 - n / 90 <= 1) by lra.
    pose proof (py_int_unit (1 - n / 90) Hx') as Hg.
    repeat split; lia.
  - do 3 eexists. split; [reflexivity|].
    assert (Hx : 0 <= (n - 90) / 90 <= 1) by lra.
    pose proof (py_int_unit ((n - 90) / 90) Hx) as Hr.
    pose proof (py_int_complement ((n - 90) / 90) Hx) as Hs.
    assert (Hx' : 0 <= 1 - (n - 90) / 90 <= 1) by lra.
    pose proof (py_int_unit (1 - (n - 90) / 90) Hx') as Hb.
    repeat split; lia.
Qed.

Lemma py_fmod_small (x : R) : 0 <= x < 360 -> py_fmod x 360 = x.
Proof.
  intros Hx. unfold py_fmod.
  rewrite (Zfloor_eq 0 (x / 360)) by lra. lra.
Qed.

Lemma py_fmod_period (x : R) : py_fmod (x + 360) 360 = py_fmod x 360.
Proof.
  unfold py_fmod.
  replace ((x + 360) / 360) with (x / 360 + IZR 1) by lra.
  rewrite Zfloor_addz, plus_IZR. lra.
Qed.

Lemma folded_angle_period (angle : R) :
  (let n0 := py_fmod (Rabs (angle + 360)) 360 in
   if Rlt_dec 180 n0 then 360 - n0 else n0)
  = (let n0 := py_fmod (Rabs angle) 360 in
     if Rlt_dec 180 n0 then 360 - n0 else n0).
Proof.
  cbv zeta.
  destruct (Rle_dec 0 angle) as [Hpos|Hneg].
  { rewrite (Rabs_pos_eq (angle + 360)), (Rabs_pos_eq angle) by lra.
    now rewrite py_fmod_period. }
  destruct (Rle_dec angle (- 360)) as [Hlow|Hmid].
  { rewrite (Rabs_left1 (angle + 360)), (Rabs_left1 angle) by lra.
    replace (- angle) with (- (angle + 360) + 360) by lra.
    now rewrite py_fmod_period. }
  rewrite (Rabs_pos_eq (angle + 360)), (Rabs_left1 angle) by lra.
  rewrite !py_fmod_small by lra.
  destruct (Rlt_dec 180 (angle + 360)); destruct (Rlt_dec 180 (- angle));
    lra.
Qed.

(** X18: the colour depends only on how far the turn is from no turn at
    all: [calculate_color] gives the same colour for an angle and its
    opposite, and for an angle and that angle plus a full turn; no turn is
    pure green, a right angle pure blue and a reversal pure red. *)
Theorem calculate_color_even_periodic (angle : R) :
  calculate_color (- angle) = calculate_color angle /\
  calculate_color (angle + 360) = calculate_color angle /\
  calculate_color 0 = (0, 255, 0)%Z /\
  calculate_color 90 = (0, 0, 255)%Z /\
  calculate_color 180 = (255, 0, 0)%Z.
Proof.
  assert (I255 : py_int (255 * 1) = 255%Z).
  { unfold py_int. destruct (Rle_dec 0 (255 * 1)); [|lra].
    replace (255 * 1) with (IZR 255) by lra. apply ZfloorZ. }
  assert (I0 : py_int (255 * 0) = 0%Z).
  { unfold py_int. destruct (Rle_dec 0 (255 * 0)); [|lra].
    replace (255 * 0) with (IZR 0) by lra. apply ZfloorZ. }
  split; [|split; [|split; [|split]]].
  - unfold calculate_color. now rewrite Rabs_Ropp.
  - unfold calculate_color.
    pose proof (folded_angle_period angle) as H. cbv zeta in H |- *.
    rewrite H. reflexivity.
  - unfold calculate_color. cbv zeta.
    rewrite Rabs_R0, py_fmod_small by lra.
    destruct (Rlt_dec 180 0); [lra|].
    destruct (Rle_dec 0 90); [|lra].
    replace (1 - 0 / 90) with 1 by lra. replace (0 / 90) with 0 by lra.
    now rewrite I255, I0.
  - unfold calculate_color. cbv zeta.
    rewrite (Rabs_pos_eq 90), py_fmod_small by lra.
    destruct (Rlt_dec 180 90); [lra|].
    destruct (Rle_dec 90 90); [|lra].
    replace (1 - 90 / 90) with 0 by lra. replace (90 / 90) with 1 by lra.
    now rewrite I255, I0.
  - unfold calculate_color. cbv zeta.
    rewrite (Rabs_pos_eq 180), py_fmod_small by lra.
    destruct (Rlt_dec 180 180); [lra|].
    destruct (Rle_dec 180 90); [lra|].
    replace (1 - (180 - 90) / 90) with 0 by lra.
    replace ((180 - 90) / 90) with 1 by lra.
    now rewrite I255, I0.
Qed.

(** ** The recency scaling set up by [__init__] *)

Lemma exp_le_compat (x y : R) : x <= y -> exp x <= exp y.
Proof.
  intros [H| ->]; [left; now apply exp_increasing | right; reflexivity].
Qed.

Lemma ln_le_compat (x y : R) : 0 < x -> x <= y -> ln x <= ln y.
Proof.
  intros Hx [H| ->]; [left; now apply ln_increasing | right; reflexivity].
Qed.

Lemma Rpower_recency (x D : R) :
  1 < D -> 1 <= x <= D ->
  1 <= Rpower x (1 / ln D) <= exp 1 /\ Rpower D (1 / ln D) = exp 1.
Proof.
  intros HD Hx. pose proof (ln_pos D HD) as HL.
  assert (H0 : 0 <= ln x) by (rewrite <- ln_1; apply ln_le_compat; lra).
  assert (H1 : ln x <= ln D) by (apply ln_le_compat; lra).
  assert (Hq : 0 <= 1 / ln D * ln x <= 1).
  { split.
    - apply Rmult_le_pos; [|exact H0]. left. apply Rdiv_lt_0_compat; lra.
    - apply Rmult_le_reg_r with (ln D); [exact HL|].
      replace (1 / ln D * ln x * ln D) with (ln x) by (field; lra). lra. }
  unfold Rpower. split.
  - split.
    + apply Rle_trans with (exp 0); [rewrite exp_0; lra|].
      apply exp_le_compat. lra.
    + apply exp_le_compat. lra.
  - f_equal. field. lra.
Qed.

(** X19: the recency scaling of an engine built for [depth > 1] moves, as
    the comment in [__init__] has it ([historyDepth^scoreScaler = e]):
    both constants are positive, the multiplier [moveCount^scoreScaler]
    is at least 1 and at most [e] for every move count from 1 to [depth],
    it is exactly [e] at [depth], and [ScoreScalerMiddle] lies between 1
    and [e]. *)
Theorem recency_scale_between_1_and_e (depth : Z) (e : Engine) :
  __init__ depth = Ok e ->
  0 < scoreScaler e /\ 1 <= ScoreScalerMiddle e <= exp 1 /\
  math_pow (IZR depth) (scoreScaler e) = Ok (exp 1) /\
  forall n : nat, (1 <= Z.of_nat n <= depth)%Z ->
    exists scaler,
      math_pow (INR n) (scoreScaler e) = Ok scaler /\
      1 <= scaler <= exp 1.
Proof.
  intros Hinit.
  destruct (init_accepts depth e Hinit) as [[Hd _] ->].
  cbn [scoreScaler ScoreScalerMiddle fresh_engine].
  assert (H2 : 2 <= IZR depth) by (apply IZR_le; lia).
  assert (HD : 1 < IZR depth) by lra.
  split; [apply Rdiv_lt_0_compat; [lra | now apply ln_pos]|].
  split; [apply (Rpower_recency (IZR depth / 2) (IZR depth) HD); lra|].
  split.
  { unfold math_pow. destruct (Rlt_dec 0 (IZR depth)); [|lra].
    f_equal. apply (Rpower_recency (IZR depth) (IZR depth) HD). lra. }
  intros n Hn. rewrite INR_IZR_INZ.
  assert (Hn1 : 1 <= IZR (Z.of_nat n)) by (apply IZR_le; lia).
  assert (Hn2 : IZR (Z.of_nat n) <= IZR depth) by (apply IZR_le; lia).
  unfold math_pow. destruct (Rlt_dec 0 (IZR (Z.of_nat n))); [|lra].
  eexists. split; [reflexivity|].
  apply (Rpower_recency _ (IZR depth) HD). lra.
Qed.

Lemma recency_scale_between_1_and_e_witness :
  0 < scoreScaler (fresh_engine 30) /\
  math_pow (IZR 30) (scoreScaler (fresh_engine 30)) = Ok (exp 1).
Proof.
  assert (Hinit : __init__ 30 = Ok (fresh_engine 30))
    by (apply init_ok; pose proof float_int_bound_large; lia).
  destruct (recency_scale_between_1_and_e 30 _ Hinit) as (Hs & _ & Hp & _).
  split; [exact Hs | exact Hp].
Defined.

(** * A round with recorded moves

    The engine of the round [0, 0, ...] after its first two moves: two
    vectors in the history and a tensor that is no longer zero. *)

Lemma sumf_ge_term (f : nat -> R) (n m : nat) :
  (forall k, (k < n)%nat -> 0 <= f k) -> (m < n)%nat -> f m <= sumf f n.
Proof.
  intros Hf. induction n as [|n IH]; intros Hm; [lia|].
  rewrite sumf_S.
  assert (H0 : forall k, (k < n)%nat -> 0 <= f k) by (intros; apply Hf; lia).
  assert (Hs : 0 <= sumf f n).
  { clear -H0. induction n as [|n IH]; [unfold sumf; lra|].
    rewrite sumf_S. specialize (H0 n (Nat.lt_succ_diag_r n)) as Hn.
    assert (0 <= sumf f n) by (apply IH; intros; apply H0; lia). lra. }
  destruct (Nat.eq_dec m n) as [->|Hne].
  - lra.
  - specialize (IH H0 ltac:(lia)). specialize (Hf n (Nat.lt_succ_diag_r n)).
    lra.
Qed.

Lemma sumf_two (f : nat -> R) : sumf f 2 = f 0%nat + f 1%nat.
Proof.
  rewrite (sumf_S f 1), (sumf_S f 0). change (sumf f 0) with 0. lra.
Qed.

Lemma blend_2_at_0 : vec (blend 2 (29 / 30) (1 / 30)) 0 = 164 / 225.
Proof.
  unfold vec. rewrite (blend_nth 2 _ _ 0) by lia.
  rewrite (template_weight_at 2 (Z.of_nat 0) 2) by reflexivity.
  rewrite (template_weight_at 2 (Z.of_nat 0 - 1) 3) by reflexivity. lra.
Qed.

Lemma get_move_0 : get_move 0 = Ok (blend 0 (29 / 30) (1 / 30)).
Proof.
  replace 0 with (12 * IZR 0) by lra. apply get_move_bin_aligned. lia.
Qed.

Lemma get_move_24 : get_move 24 = Ok (blend 2 (29 / 30) (1 / 30)).
Proof.
  replace 24 with (12 * IZR 2) by lra. apply get_move_bin_aligned. lia.
Qed.

(** The round [0, 0] on an engine of depth 3. *)
Lemma round_0_0 :
  exists e1 e2,
    record_move_and_get_predicted 0 (fresh_engine 3)
    = (Ok (Move_new StateCount), e1) /\
    record_move_and_get_predicted 0 e1 = (Ok (Move_new StateCount), e2) /\
    engine_ok e2 /\ scaler_ok e2 /\
    history e2 = [blend 0 (29 / 30) (1 / 30); blend 0 (29 / 30) (1 / 30)] /\
    (forall i j, (i < 30)%nat -> (j < 30)%nat ->
       cell (weights e2) 0 i j
       = vec (blend 0 (29 / 30) (1 / 30)) i
         * vec (blend 0 (29 / 30) (1 / 30)) j) /\
    (forall d i j, (0 < d)%nat -> cell (weights e2) d i j = 0).
Proof.
  destruct (two_moves_spec 3 0 0)
    as (va & vb & e1 & e2 & Hma & Hmb & _ & _ & H1 & H2 & _ & Hh2 & Hok2
        & _ & Hs & Hm & C0 & C1); try lra; try lia.
  assert (Hsc : scaler_ok e2).
  { destruct (fresh_engine_ok 3) as [_ [S1 S2]]; [lia|].
    unfold scaler_ok. rewrite Hs, Hm. split; assumption. }
  rewrite get_move_0 in Hma, Hmb.
  assert (va = blend 0 (29 / 30) (1 / 30)) as -> by congruence.
  assert (vb = blend 0 (29 / 30) (1 / 30)) as -> by congruence.
  exists e1, e2.
  split; [exact H1|]. split; [exact H2|]. split; [exact Hok2|].
  split; [exact Hsc|]. split; [exact Hh2|]. split; [exact C0|exact C1].
Qed.

Lemma record_move_two_passes_witness :
  exists e1 e2 pred e3,
    record_move_and_get_predicted 0 (fresh_engine 3)
    = (Ok (Move_new StateCount), e1) /\
    record_move_and_get_predicted 0 e1 = (Ok (Move_new StateCount), e2) /\
    history e2 = [blend 0 (29 / 30) (1 / 30); blend 0 (29 / 30) (1 / 30)] /\
    cell (weights e2) 0 0 0 = 224 / 225 * (224 / 225) /\
    record_move_and_get_predicted 24 e2 = (Ok pred, e3) /\
    pred = accumulate_pass (history e2) (weights e2) /\
    weights e3
    = update_pass (blend 2 (29 / 30) (1 / 30)) (history e2) (weights e2) /\
    0 < vec pred 0 /\
    cell (weights e3) 0 0 0
    = 224 / 225 * (224 / 225) + 164 / 225 * (224 / 225).
Proof.
  destruct round_0_0 as (e1 & e2 & H1 & H2 & Hok2 & _ & Hh2 & C0 & C1).
  destruct (record_move_two_passes 24 _ e2 get_move_24 Hok2)
    as (pred & e3 & Hrun & Hp & Hc & Hacc & Hupd).
  exists e1, e2, pred, e3.
  assert (Hc0 : cell (weights e2) 0 0 0 = 224 / 225 * (224 / 225))
    by (rewrite C0 by lia; now rewrite blend_0_at_0).
  split; [exact H1|]. split; [exact H2|]. split; [exact Hh2|].
  split; [exact Hc0|]. split; [exact Hrun|]. split; [exact Hacc|].
  split; [exact Hupd|]. split.
  - rewrite Hp by lia. unfold predicted_sum. rewrite Hh2.
    change (length [_; _]) with 2%nat. rewrite sumf_two. cbn [nth].
    set (v := blend 0 (29 / 30) (1 / 30)) in *.
    assert (S1 : sumf (fun j => vec v j * cell (weights e2) 1 0 j) 30 = 0).
    { apply sumf_zero. intros j _. rewrite C1 by lia. lra. }
    rewrite S1.
    assert (S0 : 224 / 225 * (224 / 225 * (224 / 225))
                 <= sumf (fun j => vec v j * cell (weights e2) 0 0 j) 30).
    { pose proof
        (sumf_ge_term (fun j => vec v j * cell (weights e2) 0 0 j) 30 0)
        as Hge.
      cbv beta in Hge. rewrite Hc0 in Hge. unfold v at 2 in Hge.
      rewrite blend_0_at_0 in Hge. apply Hge; [|lia].
      intros j Hj. rewrite C0 by lia. unfold v at 2. rewrite blend_0_at_0.
      nra. }
    lra.
  - rewrite Hc, Hh2 by (rewrite ?Hh2; simpl; lia). cbn [nth].
    now rewrite Hc0, blend_2_at_0, blend_0_at_0.
Defined.

Lemma tensor_update_is_additive_witness :
  exists e1 e2 pred e3,
    record_move_and_get_predicted 0 (fresh_engine 3)
    = (Ok (Move_new StateCount), e1) /\
    record_move_and_get_predicted 0 e1 = (Ok (Move_new StateCount), e2) /\
    record_move_and_get_predicted 24 e2 = (Ok pred, e3) /\
    cell (weights e3) 0 0 0 - cell (weights e2) 0 0 0
    = 164 / 225 * (224 / 225) /\
    cell (weights e3) 2 0 0 = cell (weights e2) 2 0 0.
Proof.
  destruct round_0_0 as (e1 & e2 & H1 & H2 & Hok2 & _ & Hh2 & C0 & C1).
  destruct (tensor_update_is_additive 24 _ e2 get_move_24 Hok2)
    as (pred & e3 & Hrun & _ & Hadd & Hkeep).
  exists e1, e2, pred, e3.
  split; [exact H1|]. split; [exact H2|]. split; [exact Hrun|]. split.
  - rewrite Hadd, Hh2 by (rewrite ?Hh2; simpl; lia). cbn [nth].
    now rewrite blend_2_at_0, blend_0_at_0.
  - apply Hkeep. rewrite Hh2. simpl. lia.
Defined.

Lemma record_move_depth (degrees : R) (e0 e : Engine) (pred : Move) :
  record_move_and_get_predicted degrees e0 = (Ok pred, e) ->
  - 360 <= degrees <= 360 -> engine_ok e0 ->
  history_depth e = history_depth e0.
Proof.
  intros Hrun Hd Hok.
  destruct (record_move_ok degrees e0 Hd Hok)
    as (v & p & e' & _ & _ & Hrun' & _ & _ & _ & Hdp & _).
  rewrite Hrun in Hrun'. now inversion Hrun'; subst.
Qed.

Lemma record_move_accumulates_correlation_witness :
  exists e0 p1 e1 p2 e2 p3 e3,
    __init__ 3 = Ok e0 /\ holds_round [] e0 /\
    record_move_and_get_predicted 0 e0 = (Ok p1, e1) /\
    holds_round [blend 0 (29 / 30) (1 / 30)] e1 /\
    record_move_and_get_predicted 0 e1 = (Ok p2, e2) /\
    holds_round [blend 0 (29 / 30) (1 / 30); blend 0 (29 / 30) (1 / 30)]
      e2 /\
    record_move_and_get_predicted 24 e2 = (Ok p3, e3) /\
    holds_round
      [blend 0 (29 / 30) (1 / 30); blend 0 (29 / 30) (1 / 30);
       blend 2 (29 / 30) (1 / 30)] e3 /\
    cell (weights e3) 0 0 0
    = 224 / 225 * (224 / 225) + 164 / 225 * (224 / 225) /\
    cell (weights e3) 1 0 0 = 164 / 225 * (224 / 225).
Proof.
  set (v0 := blend 0 (29 / 30) (1 / 30)).
  set (v2 := blend 2 (29 / 30) (1 / 30)).
  assert (Hi : __init__ 3 = Ok (fresh_engine 3)).
  { apply init_ok. pose proof float_int_bound_large. lia. }
  destruct (fresh_engine_ok 3) as [Hok0 _]; [lia|].
  pose proof (proj1 (record_move_accumulates_correlation [] 0 v0
                       (fresh_engine 3)) 3%Z Hi) as R0.
  destruct (proj2 (record_move_accumulates_correlation [] 0 v0
                     (fresh_engine 3)) get_move_0 Hok0 R0)
    as (p1 & e1 & Hrun1 & Hok1 & R1).
  destruct (proj2 (record_move_accumulates_correlation [v0] 0 v0 e1)
              get_move_0 Hok1 R1)
    as (p2 & e2 & Hrun2 & Hok2 & R2).
  destruct (proj2 (record_move_accumulates_correlation [v0; v0] 24 v2 e2)
              get_move_24 Hok2 R2)
    as (p3 & e3 & Hrun3 & Hok3 & R3).
  cbn [app] in R1, R2, R3.
  assert (HD : length (weights e3) = 3%nat).
  { pose proof (record_move_depth _ _ _ _ Hrun1 ltac:(lra) Hok0) as D1.
    pose proof (record_move_depth _ _ _ _ Hrun2 ltac:(lra) Hok1) as D2.
    pose proof (record_move_depth _ _ _ _ Hrun3 ltac:(lra) Hok2) as D3.
    destruct Hok3 as (_ & _ & _ & Hd3).
    rewrite D3, D2, D1 in Hd3. cbn [history_depth fresh_engine] in Hd3.
    lia. }
  exists (fresh_engine 3), p1, e1, p2, e2, p3, e3.
  split; [exact Hi|]. split; [exact R0|]. split; [exact Hrun1|].
  split; [exact R1|]. split; [exact Hrun2|]. split; [exact R2|].
  split; [exact Hrun3|]. split; [exact R3|].
  destruct R3 as [_ R3]. split.
  - rewrite R3 by lia. unfold correlation. cbn [length].
    rewrite !sumf_S. change (sumf _ 0) with 0.
    cbn [Nat.ltb Nat.leb nth Nat.sub].
    fold v0 v2. unfold v0, v2. rewrite blend_0_at_0, blend_2_at_0. lra.
  - rewrite R3 by lia. unfold correlation. cbn [length].
    rewrite !sumf_S. change (sumf _ 0) with 0.
    cbn [Nat.ltb Nat.leb nth Nat.sub].
    unfold v0, v2. rewrite blend_0_at_0, blend_2_at_0. lra.
Defined.

(** ** Scoring on an engine with recorded moves *)

Lemma sample_prediction_facts :
  vec_ok sample_prediction /\
  py_sum (map Rabs (states sample_prediction)) = 31 /\
  py_max (states sample_prediction) = Ok 2 /\
  py_min (states sample_prediction) = Ok 1 /\
  forall k, (0 < k < 30)%nat -> vec sample_prediction k = 1.
Proof.
  split; [reflexivity|]. split; [|split; [|split]].
  - unfold sample_prediction, py_sum. cbn [states repeat map fold_left].
    rewrite (Rabs_pos_eq 2), (Rabs_pos_eq 1) by lra. lra.
  - unfold sample_prediction, py_max. cbn [states repeat fold_left].
    repeat rewrite (Rmax_left 2 1) by lra. reflexivity.
  - unfold sample_prediction, py_min. cbn [states repeat fold_left].
    rewrite (Rmin_right 2 1) by lra.
    repeat rewrite (Rmin_left 1 1) by lra. reflexivity.
  - intros k Hk. unfold vec, sample_prediction. cbn [states].
    destruct k as [|k]; [lia|]. cbn [nth].
    apply nth_repeat_lt. lia.
Qed.

(** With moves in the history the recency scaler is positive. *)
Lemma recency_scaler_pos (e : Engine) (n : nat) (sc : R) :
  (0 < n)%nat -> math_pow (INR n) (scoreScaler e) = Ok sc -> 0 < sc.
Proof.
  intros Hn. unfold math_pow.
  assert (0 < INR n) by (apply lt_0_INR; lia).
  destruct (Rlt_dec 0 (INR n)); [|lra].
  intros [= <-]. unfold Rpower. apply exp_pos.
Qed.

Lemma scoring_contributions_nonneg_witness :
  exists e1 e2 fb pos neg scaler,
    record_move_and_get_predicted 0 (fresh_engine 3)
    = (Ok (Move_new StateCount), e1) /\
    record_move_and_get_predicted 0 e1 = (Ok (Move_new StateCount), e2) /\
    math_pow (INR (length (history e2))) (scoreScaler e2) = Ok scaler /\
    0 < scaler /\
    get_scoring_weight 84 sample_prediction e2 = (Ok (fb, pos, neg), e2) /\
    pos = 226 / 465 * scaler /\ neg = 678 / 465 * scaler /\
    0 < pos /\ 0 < neg.
Proof.
  destruct round_0_0 as (e1 & e2 & H1 & H2 & Hok2 & Hsc2 & Hh2 & _).
  destruct sample_prediction_facts as (Hp & Hsum & Hmax & Hmin & Hone).
  destruct (scoring_contributions_nonneg 84 sample_prediction e2)
    as (t & w1 & w2 & hi & lo & sc & Hg & Hmax' & Hmin' & Hpow & Hrun
        & _ & Hpos & Hneg);
    [lra | exact Hp | exact Hsc2 | rewrite Hsum; lra |].
  replace 84 with (12 * IZR 7) in Hg by lra.
  rewrite target_bin_aligned in Hg by lia.
  injection Hg as <- <- <-.
  assert (hi = 2) as -> by congruence.
  assert (lo = 1) as -> by congruence.
  assert (Hs : 0 < sc).
  { apply (recency_scaler_pos e2 (length (history e2))); [|exact Hpow].
    rewrite Hh2. simpl. lia. }
  cbv zeta in Hrun, Hpos, Hneg.
  rewrite Hsum in Hrun.
  change (Z.to_nat 7) with 7%nat in Hrun.
  change (Z.to_nat (get_index_at_offset 7 1)) with 8%nat in Hrun.
  rewrite !Hone in Hrun by lia.
  rewrite (Rabs_pos_eq 1), (Rmax_left 2 1), SumMoveWeights_eq in Hrun
    by lra.
  do 5 eexists. exists sc.
  split; [exact H1|]. split; [exact H2|]. split; [exact Hpow|].
  split; [exact Hs|]. split; [exact Hrun|].
  split; [field|]. split; [field|]. split; nra.
Defined.

Lemma scoring_total_independent_of_angle_witness :
  exists e1 e2 fa pa na fb pb nb scaler,
    record_move_and_get_predicted 0 (fresh_engine 3)
    = (Ok (Move_new StateCount), e1) /\
    record_move_and_get_predicted 0 e1 = (Ok (Move_new StateCount), e2) /\
    math_pow (INR (length (history e2))) (scoreScaler e2) = Ok scaler /\
    0 < scaler /\
    get_scoring_weight 84 sample_prediction e2 = (Ok (fa, pa, na), e2) /\
    get_scoring_weight 0 sample_prediction e2 = (Ok (fb, pb, nb), e2) /\
    pa + na = pb + nb /\ pa + na = 904 / 465 * scaler /\ 0 < pa + na /\
    fa * (2 * ScoreScalerMiddle e2) = pa - na /\
    fb * (2 * ScoreScalerMiddle e2) = pb - nb.
Proof.
  destruct round_0_0 as (e1 & e2 & H1 & H2 & Hok2 & Hsc2 & Hh2 & _).
  destruct sample_prediction_facts as (Hp & Hsum & Hmax & Hmin & Hone).
  destruct (scoring_total_independent_of_angle 84 0 sample_prediction e2)
    as (fa & pa & na & fb & pb & nb & hi & lo & sc & Ha & Hb & Hmax'
        & Hmin' & Hpow & Heq & Htot & Hfa & Hfb);
    [lra | lra | exact Hp | exact Hsc2 | rewrite Hsum; lra |].
  assert (hi = 2) as -> by congruence.
  assert (lo = 1) as -> by congruence.
  assert (Hs : 0 < sc).
  { apply (recency_scaler_pos e2 (length (history e2))); [|exact Hpow].
    rewrite Hh2. simpl. lia. }
  rewrite Hsum, (Rabs_pos_eq 1), (Rmax_left 2 1), SumMoveWeights_eq in Htot
    by lra.
  exists e1, e2, fa, pa, na, fb, pb, nb, sc.
  split; [exact H1|]. split; [exact H2|]. split; [exact Hpow|].
  split; [exact Hs|]. split; [exact Ha|]. split; [exact Hb|].
  split; [exact Heq|]. split; [rewrite Htot; field|].
  split; [rewrite Htot; nra|]. split; [exact Hfa | exact Hfb].
Defined.

(** C4, the claim as stated fails: in binary64, for the angle 7, the
    predicted vector [3.9, 3.9, 0, ..., 0] and an engine of depth 2 after
    its first move, [get_scoring_weight] returns a negative [pos]
    (about -1.78e-15): the raw score rounds to a value just above the
    range normalizer. *)
Lemma binary64_pos_contribution_negative :
  exists score pos neg,
    Binary64.get_scoring_weight binary64_engine 7%float binary64_prediction
    = Some (Ok (score, pos, neg)) /\
    (pos <? 0)%float = true /\ (0 <? neg)%float = true.
Proof.
  do 3 eexists. split; [vm_compute; reflexivity|].
  split; vm_compute; reflexivity.
Qed.

(** ** The third move of a round *)

















(** ** The limits of exact arithmetic *)

(** X4: [get_target_state_and_weights] in binary64 at two angles just
    below a bin boundary.  The float 59.99999999999999, which is
    8444249301319679 / 2^47 and less than 60, gets bin 5, because
    [30 * (degrees / 360)] rounds to 5.0, where the exact floor is bin 4;
    and 11.999999999999998, which is 6755399441055743 / 2^49, gets bin 0
    with [t1_weight = 1.0] and [t2_weight = 0.0], where the exact weights
    are below 1 and above 0. *)
Lemma binary64_target_at_bin_edges :
  Prim2SF 0x1.dffffffffffffp+5 = S754_finite false 8444249301319679 (-47) /\
  (exists w1 w2,
     Binary64.get_target_state_and_weights 0x1.dffffffffffffp+5
     = Ok (5%Z, w1, w2)) /\
  (exists w1 w2,
     get_target_state_and_weights (8444249301319679 / 2 ^ 47)
     = (4%Z, w1, w2)) /\
  Prim2SF 0x1.7ffffffffffffp+3 = S754_finite false 6755399441055743 (-49) /\
  Binary64.get_target_state_and_weights 0x1.7ffffffffffffp+3
  = Ok (0%Z, 1%float, 0%float) /\
  (exists w1 w2,
     get_target_state_and_weights (6755399441055743 / 2 ^ 49)
     = (0%Z, w1, w2) /\ w1 < 1 /\ 0 < w2).
Proof.
  split; [vm_compute; reflexivity|].
  split; [do 2 eexists; vm_compute; reflexivity|].
  split.
  { destruct (target_weights_favour_own_template
                (8444249301319679 / 2 ^ 47))
      as (t & w1 & w2 & Hg & Ht & _).
    rewrite norm_degrees_id in Ht by lra.
    rewrite (Zfloor_eq 4) in Ht by lra. subst t. now exists w1, w2. }
  split; [vm_compute; reflexivity|].
  split; [vm_compute; reflexivity|].
  destruct (target_weights_favour_own_template
              (6755399441055743 / 2 ^ 49))
    as (t & w1 & w2 & Hg & Ht & _ & Hw1 & Hw2 & _).
  rewrite norm_degrees_id in Ht by lra.
  rewrite (Zfloor_eq 0) in Ht by lra. subst t.
  exists w1, w2. split; [exact Hg|]. split; lra.
Qed.
